(** * HW4/utils.py: dictionary, dataset, batching and beam helpers

    A shallow embedding of [src/HW4/utils.py].  Python values are modelled
    as follows:
    - [str] is [string] (a sequence of 8-bit characters); the character
      classes of the [re] and [str] libraries (whitespace, word
      characters) are section variables, with an ASCII instance below;
    - [dict] is stdpp's [gmap]; Python lists and 1-D tensors are lists;
      a tensor element of dtype long is a [Z];
    - a Python exception is the [Raise] constructor of [result]. *)

From Stdlib Require Import ZArith Ascii String.
From stdpp Require Import base option list gmap strings sorting.

Open Scope string_scope.
Open Scope Z_scope.
Open Scope list_scope.

Set Warnings "-register-all,-clear-no-such-hyp".

(** ** Exceptions *)

Inductive exn : Type :=
  | KeyError | IndexError | ValueError | TypeError
  | NameError | UnboundLocalError | AttributeError | RuntimeError.

Inductive result (A : Type) : Type :=
  | Ok (a : A)
  | Raise (e : exn).
Arguments Ok {A} a.
Arguments Raise {A} e.

#[global] Instance result_ret : MRet result := fun A a => Ok a.
#[global] Instance result_bind : MBind result := fun A B f m =>
  match m with
  | Ok a => f a
  | Raise e => Raise e
  end.

(** [[f(x) for x in xs]]: evaluation from left to right, stopping at the
    first exception. *)
Fixpoint for_each {A B : Type} (f : A → result B) (xs : list A)
  : result (list B) :=
  match xs with
  | [] => Ok []
  | x :: xs' => y ← f x; ys ← for_each f xs'; Ok (y :: ys)
  end.

(** [d[k]] on a dict. *)
Definition dict_getitem `{Countable K} {V : Type} (d : gmap K V) (k : K)
  : result V :=
  match d !! k with
  | Some v => Ok v
  | None => Raise KeyError
  end.

(** [k in d] on a dict. *)
Definition dict_contains `{Countable K} {V : Type} (d : gmap K V) (k : K)
  : bool :=
  match d !! k with
  | Some _ => true
  | None => false
  end.

(** [xs[i]] on a list, for a Python int [i] (negative indices count from
    the end). *)
Definition list_getitem {A : Type} (xs : list A) (i : Z) : result A :=
  let n := Z.of_nat (length xs) in
  let j := if i <? 0 then n + i else i in
  if (0 <=? j) && (j <? n) then
    match xs !! Z.to_nat j with
    | Some x => Ok x
    | None => Raise IndexError
    end
  else Raise IndexError.

(** ** Strings *)

Definition newline : string := String (ascii_of_nat 10) EmptyString.
Definition tab : ascii := ascii_of_nat 9.

(** [sep.join(xs)] *)
Fixpoint join (sep : string) (xs : list string) : string :=
  match xs with
  | [] => ""
  | [x] => x
  | x :: xs' => x +:+ sep +:+ join sep xs'
  end.

(** [s.split(sep)] for a one-character separator. *)
Fixpoint split (sep : ascii) (s : string) : list string :=
  match s with
  | EmptyString => [""]
  | String c s' =>
      if Ascii.eqb c sep then "" :: split sep s'
      else match split sep s' with
           | h :: t => String c h :: t
           | [] => [String c ""]
           end
  end.

Section Strip.
Variable is_space : ascii → bool.

(** [s.lstrip()] *)
Fixpoint lstrip (s : string) : string :=
  match s with
  | EmptyString => ""
  | String c s' => if is_space c then lstrip s' else s
  end.

(** [s.rstrip()] *)
Fixpoint rstrip (s : string) : string :=
  match s with
  | EmptyString => ""
  | String c s' =>
      match rstrip s' with
      | EmptyString => if is_space c then "" else String c ""
      | r => String c r
      end
  end.

(** [s.strip()] *)
Definition strip (s : string) : string := lstrip (rstrip s).
End Strip.

(** ** ChatDictionary *)

Record ChatDictionary : Type := {
  word2ind : gmap string Z;
  ind2word : gmap Z string;
  counts : gmap string string
}.

Module Dict.
Section Init.
Variable is_space : ascii → bool.

(** Lines 28-30: one line of the dictionary file gives a word and its
    count; the two-character word backslash-n stands for a newline. *)
Definition parse_entry (w : string) : result (string * string) :=
  match split tab (strip is_space w) with
  | [_word; _count] =>
      Ok (if String.eqb _word "\n" then newline else _word, _count)
  | _ => Raise ValueError
  end.

(** Lines 28-33: the body of the loop, at index [i]. *)
Definition init_step (self : ChatDictionary) (i : Z) (w : string)
  : result ChatDictionary :=
  '(_word, _count) ← parse_entry w;
  Ok {| word2ind := <[_word := i]> (word2ind self);
        ind2word := <[i := _word]> (ind2word self);
        counts := <[_word := _count]> (counts self) |}.

(** [for i, w in enumerate(dict_raw)], from index [i] on. *)
Fixpoint init_loop (self : ChatDictionary) (i : Z) (dict_raw : list string)
  : result ChatDictionary :=
  match dict_raw with
  | [] => Ok self
  | w :: rest => self' ← init_step self i w; init_loop self' (i + 1) rest
  end.

(** [ChatDictionary.__init__], on the lines of the dictionary file. *)
Definition init (dict_raw : list string) : result ChatDictionary :=
  init_loop {| word2ind := ∅; ind2word := ∅; counts := ∅ |} 0 dict_raw.
End Init.

(** The words and counts of the dictionary file, in the order of its
    lines. *)
Definition entries (is_space : ascii → bool) (dict_raw : list string)
  : result (list (string * string)) :=
  for_each (parse_entry is_space) dict_raw.

(** [ChatDictionary.t2v] *)
Definition t2v (self : ChatDictionary) (tokenized_text : list string)
  : result (list Z) :=
  for_each (fun w =>
              if dict_contains (counts self) w
              then dict_getitem (word2ind self) w
              else dict_getitem (word2ind self) "__unk__")
           tokenized_text.

(** [ChatDictionary.v2t] *)
Definition v2t (self : ChatDictionary) (list_ids : list Z) : result string :=
  ws ← for_each (dict_getitem (ind2word self)) list_ids;
  Ok (join " " ws).

(** [n == s] for an int [n] and a str [s]: values of these two types are
    never equal. *)
Definition int_eq_str (n : Z) (s : string) : bool := false.

(** The loop of [pred2text] over the entries [tensor[i].item()], with the
    words collected so far; [break] leaves the loop with them. *)
Fixpoint pred2text_loop (self : ChatDictionary) (items : list Z)
    (words : list string) : result (list string) :=
  match items with
  | [] => Ok words
  | item :: rest =>
      if int_eq_str item "__end__" || int_eq_str item "__null__" then
        Ok words
      else
        w ← dict_getitem (ind2word self) item;
        pred2text_loop self rest (words ++ [w])
  end.

(** [ChatDictionary.pred2text], on a 1-D tensor of dtype long. *)
Definition pred2text (self : ChatDictionary) (tensor : list Z)
  : result string :=
  ws ← pred2text_loop self tensor [];
  Ok (join " " ws).

(** [ChatDictionary.__len__] *)
Definition len (self : ChatDictionary) : Z := Z.of_nat (size (counts self)).
End Dict.

(** ** ChatDataset *)

(** The value [json.loads] returns.  A number keeps its literal text: its
    value plays no role here. *)
Inductive json : Type :=
  | JNull
  | JBool (b : bool)
  | JNum (literal : string)
  | JStr (s : string)
  | JList (xs : list json)
  | JDict (items : list (string * json)).

(** [obj[key]] for a [str] key. *)
Definition json_getitem_str (obj : json) (key : string) : result json :=
  match obj with
  | JDict items =>
      match list_find (fun kv => String.eqb kv.1 key = true) items with
      | Some (_, kv) => Ok kv.2
      | None => Raise KeyError
      end
  | _ => Raise TypeError
  end.

(** [obj[0]]: the first element of a list, the first character of a
    string; the keys of a JSON object are strings, so 0 is none of them. *)
Definition json_getitem_0 (obj : json) : result json :=
  match obj with
  | JList (x :: _) => Ok x
  | JList [] => Raise IndexError
  | JStr (String c _) => Ok (JStr (String c ""))
  | JStr EmptyString => Raise IndexError
  | JDict _ => Raise KeyError
  | _ => Raise TypeError
  end.

Section Retok.
Variables is_word is_space : ascii → bool.

Definition starts_with_word (s : string) : bool :=
  match s with
  | String c _ => is_word c
  | EmptyString => false
  end.

(** [RETOK.findall(s)] for [RETOK = \w+|[^\w\s]|\n]: at each position
    the longest run of word characters, else one character that is
    neither a word character nor whitespace, else a newline; any other
    character is skipped.  A word character followed by a word character
    extends the match that starts at the next position. *)
Fixpoint findall (s : string) : list string :=
  match s with
  | EmptyString => []
  | String c s' =>
      let rest := findall s' in
      if is_word c then
        if starts_with_word s' then
          match rest with
          | h :: t => String c h :: t
          | [] => [String c ""]
          end
        else String c "" :: rest
      else if negb (is_space c) then String c "" :: rest
      else if Ascii.eqb c (ascii_of_nat 10) then String c "" :: rest
      else rest
  end.

(** [RETOK.findall(x)] on a JSON value: only a [str] can be searched. *)
Definition RETOK_findall (x : json) : result (list string) :=
  match x with
  | JStr s => Ok (findall s)
  | _ => Raise TypeError
  end.
End Retok.

(** A stored sample: the parsed line with its two added entries
    ['text_vec'] and ['target_vec'], both assigned before the sample is
    appended. *)
Record Sample : Type := {
  sample_json : json;
  text_vec : list Z;
  target_vec : list Z
}.

Record ChatDataset : Type := { samples : list Sample }.

Module Dataset.
Section Init.
Variables is_word is_space : ascii → bool.
Variable json_loads : string → result json.

(** Lines 66-83: the body of the loop. *)
Definition load_sample (dictionary : ChatDictionary) (dt : string)
    (line : string) : result Sample :=
  sample ← json_loads (rstrip is_space line);
  text ← json_getitem_str sample "text";
  _inp_toked ← RETOK_findall is_word is_space text;
  _inp_toked_id ← Dict.t2v dictionary _inp_toked;
  _tar_toked ←
    (if String.eqb dt "train" then
       labels ← json_getitem_str sample "labels";
       first ← json_getitem_0 labels;
       toks ← RETOK_findall is_word is_space first;
       Ok (toks ++ ["__end__"])
     else if String.eqb dt "valid" then
       labels ← json_getitem_str sample "eval_labels";
       first ← json_getitem_0 labels;
       toks ← RETOK_findall is_word is_space first;
       Ok (toks ++ ["__end__"])
     else Raise UnboundLocalError);
  _tar_toked_id ← Dict.t2v dictionary _tar_toked;
  Ok {| sample_json := sample;
        text_vec := _inp_toked_id;
        target_vec := _tar_toked_id |}.

(** The key of the targets: ['labels'] for training data and
    ['eval_labels'] for validation data. *)
Definition target_key (dt : string) : string :=
  if String.eqb dt "train" then "labels" else "eval_labels".

(** The stored sample [s] is the line [line] parsed, tokenized and
    encoded: its text through [RETOK] and [t2v], the first of its
    targets through [RETOK], ['__end__'] appended, and [t2v]. *)
Definition line_encoded (dictionary : ChatDictionary) (dt : string)
    (line : string) (s : Sample) : Prop :=
  ∃ text labels first,
    json_loads (rstrip is_space line) = Ok (sample_json s) ∧
    json_getitem_str (sample_json s) "text" = Ok (JStr text) ∧
    json_getitem_str (sample_json s) (target_key dt) = Ok labels ∧
    json_getitem_0 labels = Ok (JStr first) ∧
    Dict.t2v dictionary (findall is_word is_space text)
      = Ok (text_vec s) ∧
    Dict.t2v dictionary (findall is_word is_space first ++ ["__end__"])
      = Ok (target_vec s).

(** [ChatDataset.__init__], on the lines of the dataset file. *)
Definition init (json_text : list string) (dictionary : ChatDictionary)
    (dt : string) : result ChatDataset :=
  ss ← for_each (load_sample dictionary dt) json_text;
  Ok {| samples := ss |}.
End Init.

(** [ChatDataset.__getitem__] *)
Definition getitem (self : ChatDataset) (i : Z) : result (list Z * list Z) :=
  s ← list_getitem (samples self) i;
  Ok (text_vec s, target_vec s).

(** [ChatDataset.__len__] *)
Definition len (self : ChatDataset) : nat := length (samples self).
End Dataset.

(** ** Padding and sorting a batch *)

(** [max(xs)] *)
Definition py_max (xs : list nat) : result nat :=
  match xs with
  | [] => Raise ValueError
  | x :: xs' => Ok (foldl Nat.max x xs')
  end.

(** [enumerate(xs)] *)
Definition enumerate {A : Type} (xs : list A) : list (nat * A) :=
  zip (seq 0 (length xs)) xs.

(** [row[:length] = tensor], for a [tensor] of [length] entries. *)
Definition assign_prefix (length : nat) (tensor row : list Z) : list Z :=
  tensor ++ drop length row.

(** [pad_tensor] *)
Definition pad_tensor (tensors : list (list Z)) (sort : bool) (pad_token : Z)
  : result (list (list Z) * list nat) :=
  let rows := length tensors in
  let lengths := map length tensors in
  max_t ← py_max lengths;
  let output := replicate rows (replicate max_t pad_token) in
  let output :=
    foldl (fun output '(i, (tensor, length)) =>
             alter (assign_prefix length tensor) i output)
          output (enumerate (zip tensors lengths)) in
  Ok (output, lengths).

(** [sorted(xs, key=key)]: ascending and stable. *)
Fixpoint insert_by (key : nat → nat) (x : nat) (xs : list nat) : list nat :=
  match xs with
  | [] => [x]
  | y :: xs' =>
      if (key x <=? key y)%nat then x :: xs else y :: insert_by key x xs'
  end.

Definition sorted (key : nat → nat) (xs : list nat) : list nat :=
  foldr (insert_by key) [] xs.

(** The order [sorted] puts its elements in. *)
Definition key_le (key : nat → nat) (a b : nat) : Prop :=
  (key a ≤ key b)%nat.

(** What [argsort] reorders: a tensor, given by its rows, or a list. *)
Inductive pyseq : Type :=
  | PyTensor (rows : list (list Z))
  | PyList (xs : list nat).

(** [[lst[i] for i in ind]], which is also [lst[ind]] on a tensor. *)
Definition take_indices {A : Type} (lst : list A) (ind : list nat)
  : result (list A) :=
  for_each (fun i => list_getitem lst (Z.of_nat i)) ind.

(** Lines 114-116 of [argsort]. *)
Definition argsort_indices (keys : list nat) (descending : bool) : list nat :=
  let ind_sorted := sorted (fun k => nth k keys 0%nat) (seq 0 (length keys)) in
  if descending then reverse ind_sorted else ind_sorted.

(** [argsort] *)
Definition argsort (keys : list nat) (lists : list pyseq) (descending : bool)
  : result (list pyseq) :=
  let ind_sorted := argsort_indices keys descending in
  for_each (fun lst =>
              match lst with
              | PyTensor rows =>
                  r ← take_indices rows ind_sorted; Ok (PyTensor r)
              | PyList xs =>
                  r ← take_indices xs ind_sorted; Ok (PyList r)
              end)
           lists.

Record Batch : Type := {
  text_vecs : pyseq;
  text_lens : pyseq;
  target_vecs : pyseq;
  target_lens : pyseq;
  use_packed : bool
}.

(** [batchify] *)
Definition batchify (batch : list (list Z * list Z)) : result Batch :=
  let inputs := map fst batch in
  let labels := map snd batch in
  '(input_vecs, input_lens) ← pad_tensor inputs true 0;
  '(label_vecs, label_lens) ← pad_tensor labels true 0;
  out ← argsort input_lens
          [PyTensor input_vecs; PyList input_lens;
           PyTensor label_vecs; PyList label_lens] true;
  match out with
  | [input_vecs; input_lens; label_vecs; label_lens] =>
      Ok {| text_vecs := input_vecs;
            text_lens := input_lens;
            target_vecs := label_vecs;
            target_lens := label_lens;
            use_packed := true |}
  | _ => Raise ValueError
  end.

(** ** Tensors and beam-search bookkeeping *)

Inductive device : Type :=
  | Cpu
  | Cuda (n : nat).

#[global] Instance device_eq_dec : EqDecision device.
Proof. solve_decision. Defined.

(** A tensor: where it lives and what it holds.  A tensor of at least one
    dimension holds a list of sub-tensors, one of at least two a list of
    lists. *)
Record tensor (A : Type) : Type := Tensor {
  tensor_device : device;
  tensor_data : A
}.
Arguments Tensor {A} tensor_device tensor_data.
Arguments tensor_device {A} t.
Arguments tensor_data {A} t.

(** The entries of [xs] at the positions [indices]; an index that is
    negative or not below [len(xs)] is out of range. *)
Definition select_entries {A : Type} (xs : list A) (indices : list Z)
  : result (list A) :=
  for_each (fun i =>
              if (0 <=? i) && (i <? Z.of_nat (length xs)) then
                match xs !! Z.to_nat i with
                | Some x => Ok x
                | None => Raise IndexError
                end
              else Raise IndexError)
           indices.

(** [t.index_select(0, indices)]; both tensors on one device. *)
Definition index_select_0 {A : Type} (t : tensor (list A))
    (indices : tensor (list Z)) : result (tensor (list A)) :=
  if decide (tensor_device t = tensor_device indices) then
    xs ← select_entries (tensor_data t) (tensor_data indices);
    Ok (Tensor (tensor_device t) xs)
  else Raise RuntimeError.

(** [t.index_select(1, indices)]; both tensors on one device. *)
Definition index_select_1 {A : Type} (t : tensor (list (list A)))
    (indices : tensor (list Z)) : result (tensor (list (list A))) :=
  if decide (tensor_device t = tensor_device indices) then
    xs ← for_each (fun row => select_entries row (tensor_data indices))
                  (tensor_data t);
    Ok (Tensor (tensor_device t) xs)
  else Raise RuntimeError.

(** [out[j] = xs[indices[j]]] at every position [j] of [indices]. *)
Definition selects {A : Type} (xs : list A) (indices : list Z)
    (out : list A) : Prop :=
  Forall2 (fun i x => 0 ≤ i ∧ xs !! Z.to_nat i = Some x) indices out.

(** [t'] is [t] index-selected along dimension 0 by [indices]. *)
Definition index_selected_0 {A : Type} (t : tensor (list A))
    (indices : tensor (list Z)) (t' : tensor (list A)) : Prop :=
  tensor_device t = tensor_device indices ∧
  tensor_device t' = tensor_device t ∧
  selects (tensor_data t) (tensor_data indices) (tensor_data t').

(** [t'] is [t] index-selected along dimension 1 by [indices]. *)
Definition index_selected_1 {A : Type} (t : tensor (list (list A)))
    (indices : tensor (list Z)) (t' : tensor (list (list A))) : Prop :=
  tensor_device t = tensor_device indices ∧
  tensor_device t' = tensor_device t ∧
  Forall2 (fun row row' => selects row (tensor_data indices) row')
          (tensor_data t) (tensor_data t').

(** The hidden state of the encoder: one tensor (GRU/RNN) or the pair
    [(h, c)] (LSTM). *)
Inductive hidden_state (A : Type) : Type :=
  | HTensor (h : tensor (list (list A)))
  | HTuple (h c : tensor (list (list A))).
Arguments HTensor {A} h.
Arguments HTuple {A} h c.

(** The [indices] argument: a tensor, or a Python sequence of ints. *)
Inductive index_arg : Type :=
  | IdxTensor (t : tensor (list Z))
  | IdxList (l : list Z).

(** Lines 169-171: [indices] as a tensor. *)
Definition as_index_tensor {A : Type} (hid : tensor A) (indices : index_arg)
  : tensor (list Z) :=
  match indices with
  | IdxTensor t => t
  | IdxList l => Tensor (tensor_device hid) l
  end.

(** [reorder_encoder_states] *)
Definition reorder_encoder_states {A B C : Type}
    (encoder_states :
       tensor (list A) * hidden_state B * tensor (list C))
    (indices : index_arg)
  : result (tensor (list A) * hidden_state B * tensor (list C)) :=
  let '(enc_out, hidden, attention_mask) := encoder_states in
  let '(hid, cell) :=
    match hidden with
    | HTensor h => (h, None)
    | HTuple h c => (h, Some c)
    end in
  let indices := as_index_tensor hid indices in
  hid ← index_select_1 hid indices;
  hidden ←
    match cell with
    | None => Ok (HTensor hid)
    | Some cell => cell ← index_select_1 cell indices; Ok (HTuple hid cell)
    end;
  enc_out ← index_select_0 enc_out indices;
  attention_mask ← index_select_0 attention_mask indices;
  Ok (enc_out, hidden, attention_mask).

(** The names bound at the top level of [utils.py]. *)
Definition module_globals : list string :=
  [ "re"; "Counter"; "tqdm"; "json"; "Dataset"; "DataLoader"; "torch"; "nn";
    "pack_padded_sequence"; "pad_packed_sequence"; "math"; "attrgetter";
    "RETOK"; "ChatDictionary"; "ChatDataset"; "pad_tensor"; "argsort";
    "batchify"; "_HypothesisTail"; "reorder_encoder_states";
    "reorder_decoder_incremental_state"; "get_nbest_list_from_beam" ].

(** [name.attr] inside a function of the module, for a [name] that is not
    one of its locals: the name is looked up among the globals (no builtin
    is called [self]); none of the globals has an attribute called
    [reorder_decoder_incremental_state]. *)
Definition load_global_attr {A : Type} (name attr : string) : result A :=
  if bool_decide (name ∈ module_globals) then Raise AttributeError
  else Raise NameError.

(** A decoder incremental state: a tensor, a tuple of states, or anything
    else. *)
Inductive inc_state (A : Type) : Type :=
  | ITensor (t : tensor (list (list A)))
  | ITuple (xs : list (inc_state A))
  | IOther.
Arguments ITensor {A} t.
Arguments ITuple {A} xs.
Arguments IOther {A}.

(** What [reorder_decoder_incremental_state] returns: a tensor, a tuple,
    or [None]. *)
Inductive inc_result (A : Type) : Type :=
  | RTensor (t : tensor (list (list A)))
  | RTuple (xs : list (inc_result A))
  | RNone.
Arguments RTensor {A} t.
Arguments RTuple {A} xs.
Arguments RNone {A}.

(** [reorder_decoder_incremental_state].  [contiguous()] changes the
    layout in memory and not the entries.  The tuple branch calls
    [self.reorder_decoder_incremental_state] for each component. *)
Definition reorder_decoder_incremental_state {A : Type}
    (incremental_state : inc_state A) (inds : tensor (list Z))
  : result (inc_result A) :=
  match incremental_state with
  | ITensor t => t' ← index_select_1 t inds; Ok (RTensor t')
  | ITuple xs =>
      ys ← for_each
             (fun x =>
                f ← load_global_attr (A := inc_state A → tensor (list Z)
                                           → result (inc_result A))
                      "self" "reorder_decoder_incremental_state";
                f x inds)
             xs;
      Ok (RTuple ys)
  | IOther => Ok RNone
  end.

(** The reordering by recursion on the components, which the tuple branch
    reaches for through [self]: the function itself on each component. *)
Fixpoint reorder_recursively {A : Type} (incremental_state : inc_state A)
    (inds : tensor (list Z)) : result (inc_result A) :=
  match incremental_state with
  | ITensor t => t' ← index_select_1 t inds; Ok (RTensor t')
  | ITuple xs =>
      ys ← (fix go (xs : list (inc_state A)) : result (list (inc_result A)) :=
              match xs with
              | [] => Ok []
              | x :: xs' =>
                  y ← reorder_recursively x inds; ys ← go xs'; Ok (y :: ys)
              end) xs;
      Ok (RTuple ys)
  | IOther => Ok RNone
  end.

(** A beam, as far as [get_nbest_list_from_beam] uses it: the attribute
    [min_n_best] and the method [_get_rescored_finished], which returns
    hypotheses as pairs of a token-id tensor and a score tensor of no
    dimension.  [S] is the type of a score. *)
Record Beam (S : Type) : Type := {
  min_n_best : Z;
  get_rescored_finished : Z → bool → list (tensor (list Z) * tensor S)
}.
Arguments min_n_best {S} b.
Arguments get_rescored_finished {S} b n_best add_length_penalty.

(** One call of [beam._get_rescored_finished], with its two keyword
    arguments. *)
Record beam_call : Type := BeamCall {
  call_n_best : Z;
  call_add_length_penalty : bool
}.

(** [get_nbest_list_from_beam]: the calls made to the beam, and the
    result. *)
Definition get_nbest_list_from_beam {S : Type} (beam : Beam S)
    (dictionary : ChatDictionary) (n_best : option Z)
    (add_length_penalty : bool)
  : list beam_call * result (list (string * S)) :=
  let n_best :=
    match n_best with
    | None => min_n_best beam
    | Some n => n
    end in
  let nbest_list := get_rescored_finished beam n_best add_length_penalty in
  ([BeamCall n_best add_length_penalty],
   for_each (fun i =>
               text ← Dict.v2t dictionary (tensor_data i.1);
               Ok (text, tensor_data i.2))
            nbest_list).

(** The whitespace and word characters of ASCII text. *)
Definition ascii_is_space (c : ascii) : bool :=
  let n := nat_of_ascii c in
  ((9 <=? n) && (n <=? 13) || (28 <=? n) && (n <=? 32))%nat.

Definition ascii_is_word (c : ascii) : bool :=
  let n := nat_of_ascii c in
  ((48 <=? n) && (n <=? 57) || (65 <=? n) && (n <=? 90)
   || (97 <=? n) && (n <=? 122) || (n =? 95))%nat.

Definition demo_dict_file : list string :=
  [ "__null__" +:+ String tab "100" +:+ newline;
    "__unk__" +:+ String tab "90" +:+ newline;
    "__end__" +:+ String tab "80" +:+ newline;
    "hello" +:+ String tab "7" +:+ newline;
    "\n" +:+ String tab "5" +:+ newline;
    "world" +:+ String tab "3" +:+ newline ].



Definition demo_entries : list (string * string) :=
  [ ("__null__", "100"); ("__unk__", "90"); ("__end__", "80");
    ("hello", "7"); (newline, "5"); ("world", "3") ].

Definition quoted (s : string) : string :=
  String (ascii_of_nat 34) s +:+ String (ascii_of_nat 34) "".

(** Two lines of a training file:
    [{"text": "hello there", "labels": ["hello world"]}] and
    [{"text": "world", "labels": ["hello"]}]. *)
Definition demo_line_1 : string :=
  "{" +:+ quoted "text" +:+ ": " +:+ quoted "hello there" +:+ ", "
  +:+ quoted "labels" +:+ ": [" +:+ quoted "hello world" +:+ "]}".

Definition demo_line_2 : string :=
  "{" +:+ quoted "text" +:+ ": " +:+ quoted "world" +:+ ", "
  +:+ quoted "labels" +:+ ": [" +:+ quoted "hello" +:+ "]}".

(** [json.loads] on these two lines. *)
Definition demo_json_loads (s : string) : result json :=
  if String.eqb s demo_line_1 then
    Ok (JDict [("text", JStr "hello there");
               ("labels", JList [JStr "hello world"])])
  else if String.eqb s demo_line_2 then
    Ok (JDict [("text", JStr "world"); ("labels", JList [JStr "hello"])])
  else Raise ValueError.

Definition demo_json_text : list string :=
  [demo_line_1 +:+ newline; demo_line_2 +:+ newline].

Definition demo_dict : ChatDictionary :=
  match Dict.init ascii_is_space demo_dict_file with
  | Ok d => d
  | Raise _ => {| word2ind := ∅; ind2word := ∅; counts := ∅ |}
  end.

Definition demo_dataset : ChatDataset :=
  match Dataset.init ascii_is_word ascii_is_space demo_json_loads
          demo_json_text demo_dict "train" with
  | Ok ds => ds
  | Raise _ => {| samples := [] |}
  end.

(** ** Predicates of the further properties *)

(** The entry [word2ind] and [counts] keep for a word is its last one
    among the entries [es] of the file. *)
Definition last_entry_inv (es : list (string * string)) (d : ChatDictionary)
  : Prop :=
  ∀ w k, word2ind d !! w = Some k →
    ∃ n c, k = Z.of_nat n ∧ es !! n = Some (w, c) ∧
           counts d !! w = Some c ∧
           ∀ j, (n < j)%nat → es.*1 !! j ≠ Some w.

(** A token [RETOK] matches with [\w+]: one or more word characters. *)
Definition word_token (is_word : ascii → bool) (tok : string) : Prop :=
  tok ≠ "" ∧ Forall (fun c => is_word c = true) (list_ascii_of_string tok).

(** A token [RETOK] matches with [[^\w\s]] or [\n]: one character that is
    no word character and is either no whitespace or the newline. *)
Definition symbol_token (is_word is_space : ascii → bool) (tok : string)
  : Prop :=
  ∃ c, tok = String c "" ∧ is_word c = false ∧
       (is_space c = false ∨ c = ascii_of_nat 10).

(** The characters [RETOK] keeps: all but whitespace other than the
    newline. *)
Definition kept_char (is_word is_space : ascii → bool) (c : ascii) : bool :=
  is_word c || negb (is_space c) || Ascii.eqb c (ascii_of_nat 10).

(** Position [a] comes before position [b] in the stable ascending order
    by [keys]: a smaller key, or the same key and an earlier position. *)
Definition key_index_lt (keys : list nat) (a b : nat) : Prop :=
  (nth a keys 0 < nth b keys 0 ∨ nth a keys 0 = nth b keys 0 ∧ a < b)%nat.

(** [len(lst)] for a tensor or a list. *)
Definition pyseq_len (lst : pyseq) : nat :=
  match lst with
  | PyTensor rows => length rows
  | PyList xs => length xs
  end.

(** A row of [pad_tensor]: the tensor followed by pad tokens up to
    [max_t] entries. *)
Definition padded (max_t : nat) (pad_token : Z) (t : list Z) : list Z :=
  t ++ replicate (max_t - length t) pad_token.

(** The tensors of a hidden state: [h], or [h] and [c]. *)
Definition hidden_tensors {A : Type} (hidden : hidden_state A)
  : list (tensor (list (list A))) :=
  match hidden with
  | HTensor h => [h]
  | HTuple h c => [h; c]
  end.

(** The tensor [reorder_encoder_states] calls [hid]. *)
Definition hid_of {A : Type} (hidden : hidden_state A)
  : tensor (list (list A)) :=
  match hidden with
  | HTensor h => h
  | HTuple h _ => h
  end.

(** * Properties *)

(** ** The error monad and list comprehensions *)

Lemma bind_Ok {A B : Type} (m : result A) (f : A → result B) (b : B) :
  m ≫= f = Ok b ↔ ∃ a, m = Ok a ∧ f a = Ok b.
Proof.
  destruct m as [a|e]; simpl.
  - split; [eauto | intros (a' & [= <-] & ?); done].
  - split; [done | intros (a' & ? & ?); done].
Qed.

Lemma for_each_Ok {A B : Type} (f : A → result B) xs ys :
  for_each f xs = Ok ys ↔ Forall2 (fun x y => f x = Ok y) xs ys.
Proof.
  revert ys. induction xs as [|x xs IH]; intros ys; simpl.
  - split; [intros [= <-]; constructor | by inversion 1].
  - split.
    + intros (y & Hy & (ys' & Hys & [= <-])%bind_Ok)%bind_Ok.
      constructor; [done | by apply IH].
    + inversion 1 as [|? y ? ys' Hy Hys]; subst.
      apply IH in Hys. by rewrite Hy, Hys.
Qed.

Lemma for_each_Raise {A B : Type} (f : A → result B) xs e :
  for_each f xs = Raise e → ∃ x, x ∈ xs ∧ f x = Raise e.
Proof.
  induction xs as [|x xs IH]; simpl; [done |].
  destruct (f x) as [y|e'] eqn:Hx; simpl.
  - destruct (for_each f xs) as [ys|e'']; simpl; [done |].
    intros [= ->]. destruct IH as (x' & ? & ?); [done |].
    exists x'. split; [by right | done].
  - intros [= ->]. exists x. split; [by left | done].
Qed.

Lemma for_each_total {A B : Type} (f : A → result B) xs :
  Forall (fun x => ∃ y, f x = Ok y) xs → ∃ ys, for_each f xs = Ok ys.
Proof.
  induction 1 as [|x xs [y Hy] _ [ys Hys]]; simpl; [by eexists |].
  rewrite Hy, Hys. by eexists.
Qed.

Lemma for_each_pure {A B : Type} (g : A → B) xs :
  for_each (fun x => Ok (g x)) xs = Ok (map g xs).
Proof. induction xs as [|x xs IH]; simpl; [done | by rewrite IH]. Qed.

Lemma dict_contains_true `{Countable K} {V : Type} (d : gmap K V) k :
  dict_contains d k = true ↔ is_Some (d !! k).
Proof.
  unfold dict_contains. destruct (d !! k); split; done.
Qed.

Lemma dict_contains_false `{Countable K} {V : Type} (d : gmap K V) k :
  dict_contains d k = false ↔ d !! k = None.
Proof. unfold dict_contains. by destruct (d !! k). Qed.

Lemma dict_getitem_Ok `{Countable K} {V : Type} (d : gmap K V) k v :
  dict_getitem d k = Ok v ↔ d !! k = Some v.
Proof.
  unfold dict_getitem. destruct (d !! k); split; congruence.
Qed.

Lemma dict_getitem_Raise `{Countable K} {V : Type} (d : gmap K V) k e :
  dict_getitem d k = Raise e ↔ d !! k = None ∧ e = KeyError.
Proof.
  unfold dict_getitem. destruct (d !! k); split; try done.
  - by intros [? ?].
  - by intros [= <-].
  - by intros [_ ->].
Qed.

(** ** ChatDictionary *)

Module DictFacts.

(** What the three maps hold once the entries [es] have been read. *)
Record inv (es : list (string * string)) (d : ChatDictionary) : Prop := {
  inv_ind2word : ∀ k w,
    ind2word d !! k = Some w ↔ 0 ≤ k ∧ es.*1 !! Z.to_nat k = Some w;
  inv_word2ind_dom : ∀ w, is_Some (word2ind d !! w) ↔ w ∈ es.*1;
  inv_counts_dom : ∀ w, is_Some (counts d !! w) ↔ w ∈ es.*1;
  inv_back : ∀ w k, word2ind d !! w = Some k → ind2word d !! k = Some w;
  inv_forth : NoDup es.*1 →
    ∀ k w, ind2word d !! k = Some w → word2ind d !! w = Some k
}.

Lemma inv_empty : inv [] {| word2ind := ∅; ind2word := ∅; counts := ∅ |}.
Proof.
  split; simpl; intros *.
  - rewrite lookup_empty, lookup_nil. naive_solver.
  - rewrite lookup_empty, elem_of_nil. split; [by intros [? ?] | done].
  - rewrite lookup_empty, elem_of_nil. split; [by intros [? ?] | done].
  - by rewrite lookup_empty.
  - intros _ *. by rewrite lookup_empty.
Qed.

Lemma inv_step es d w c :
  inv es d →
  inv (es ++ [(w, c)])
      {| word2ind := <[w := Z.of_nat (length es)]> (word2ind d);
         ind2word := <[Z.of_nat (length es) := w]> (ind2word d);
         counts := <[w := c]> (counts d) |}.
Proof.
  intros [I1 I2 I3 I4 I5].
  assert (Hlen : length es.*1 = length es) by apply length_fmap.
  assert (Hlt : ∀ k w', ind2word d !! k = Some w' →
                        0 ≤ k < Z.of_nat (length es)).
  { intros k w' [? Hk%lookup_lt_Some]%I1. lia. }
  split; simpl.
  - intros k w'. rewrite fmap_app. simpl.
    destruct (decide (k = Z.of_nat (length es))) as [->|Hne].
    + rewrite lookup_insert_eq, Nat2Z.id.
      rewrite lookup_app_r by lia. rewrite Hlen, Nat.sub_diag. simpl.
      split; [intros [= ->]; split; [lia | done] | intros [_ [= ->]]; done].
    + rewrite lookup_insert_ne by done. rewrite I1.
      split; intros [Hk Hw]; (split; [done |]).
      * by apply lookup_app_l_Some.
      * apply lookup_app_Some in Hw as [Hw | [Hge Hw]]; [done |].
        apply lookup_lt_Some in Hw. simpl in Hw. lia.
  - intros w'. rewrite fmap_app, elem_of_app. simpl.
    rewrite list_elem_of_singleton.
    destruct (decide (w = w')) as [->|Hne].
    + rewrite lookup_insert_eq. split; [by right | by eexists].
    + rewrite lookup_insert_ne by done. rewrite I2. naive_solver.
  - intros w'. rewrite fmap_app, elem_of_app. simpl.
    rewrite list_elem_of_singleton.
    destruct (decide (w = w')) as [->|Hne].
    + rewrite lookup_insert_eq. split; [by right | by eexists].
    + rewrite lookup_insert_ne by done. rewrite I3. naive_solver.
  - intros w' k.
    destruct (decide (w = w')) as [->|Hne].
    + rewrite lookup_insert_eq. intros [= <-]. by rewrite lookup_insert_eq.
    + rewrite lookup_insert_ne by done. intros Hk.
      apply I4 in Hk. pose proof (Hlt _ _ Hk).
      rewrite lookup_insert_ne by lia. done.
  - rewrite fmap_app. simpl. intros [Hnd [Hnotin _]]%NoDup_app k w'.
    destruct (decide (k = Z.of_nat (length es))) as [->|Hne].
    + rewrite lookup_insert_eq. intros [= <-]. by rewrite lookup_insert_eq.
    + rewrite lookup_insert_ne by done. intros Hk.
      assert (w' ∈ es.*1) as Hin.
      { apply I1 in Hk as [_ Hk]. by eapply list_elem_of_lookup_2. }
      assert (w ≠ w') as Hww.
      { intros ->. apply (Hnotin w'); [done | by left]. }
      rewrite lookup_insert_ne by done. by apply I5.
Qed.

Section Init.
Variable is_space : ascii → bool.

Lemma init_loop_inv dict_raw : ∀ es0 d d',
  inv es0 d →
  Dict.init_loop is_space d (Z.of_nat (length es0)) dict_raw = Ok d' →
  ∃ es, Dict.entries is_space dict_raw = Ok es ∧ inv (es0 ++ es) d'.
Proof.
  unfold Dict.entries.
  induction dict_raw as [|w rest IH]; intros es0 d d' Hinv; simpl.
  - intros [= <-]. exists []. by rewrite app_nil_r.
  - unfold Dict.init_step.
    destruct (Dict.parse_entry is_space w) as [[_word _count]|e]; [|done].
    simpl. intros Hloop.
    replace (Z.of_nat (length es0) + 1)
      with (Z.of_nat (length (es0 ++ [(_word, _count)]))) in Hloop
      by (rewrite length_app; simpl; lia).
    apply IH in Hloop as (es & -> & Hinv'); [|by apply inv_step].
    simpl. exists ((_word, _count) :: es). split; [done |].
    by rewrite <-app_assoc in Hinv'.
Qed.

Lemma init_inv dict_raw d :
  Dict.init is_space dict_raw = Ok d →
  ∃ es, Dict.entries is_space dict_raw = Ok es ∧ inv es d.
Proof. intros Hinit. by apply (init_loop_inv dict_raw [] _ d inv_empty). Qed.

Lemma init_loop_total dict_raw : ∀ es d i,
  Dict.entries is_space dict_raw = Ok es →
  ∃ d', Dict.init_loop is_space d i dict_raw = Ok d'.
Proof.
  unfold Dict.entries.
  induction dict_raw as [|w rest IH]; intros es d i; simpl.
  - by eexists.
  - unfold Dict.init_step.
    destruct (Dict.parse_entry is_space w) as [[_word _count]|e]; [|done].
    simpl.
    destruct (for_each (Dict.parse_entry is_space) rest) as [es'|e] eqn:Hes;
      [|done].
    intros _. by eapply IH.
Qed.
End Init.

End DictFacts.

Lemma join_cons (sep x : string) (xs : list string) :
  xs ≠ [] → join sep (x :: xs) = x +:+ sep +:+ join sep xs.
Proof. by destruct xs. Qed.

Section Dictionary.
Variable is_space : ascii → bool.
Variable dict_raw : list string.
Variable d : ChatDictionary.
Hypothesis Hinit : Dict.init is_space dict_raw = Ok d.

(** A key of [counts] is a key of [word2ind]. *)
Lemma counts_word2ind w :
  is_Some (counts d !! w) → is_Some (word2ind d !! w).
Proof.
  destruct (DictFacts.init_inv _ _ _ Hinit) as (es & _ & Hinv).
  rewrite (DictFacts.inv_counts_dom _ _ Hinv).
  by rewrite (DictFacts.inv_word2ind_dom _ _ Hinv).
Qed.

(** The keys of [counts] are the words of the file. *)
Lemma counts_entries w :
  is_Some (counts d !! w) ↔
  ∃ es, Dict.entries is_space dict_raw = Ok es ∧ w ∈ es.*1.
Proof.
  destruct (DictFacts.init_inv _ _ _ Hinit) as (es & Hes & Hinv).
  rewrite (DictFacts.inv_counts_dom _ _ Hinv). split.
  - intros ?. by exists es.
  - intros (es' & Hes' & ?). congruence.
Qed.

(** Decoding the index of a word gives the word back, whether or not the
    file repeats words: a repeated word keeps its last index. *)
Lemma ind2word_word2ind w k :
  word2ind d !! w = Some k → ind2word d !! k = Some w.
Proof.
  destruct (DictFacts.init_inv _ _ _ Hinit) as (es & _ & Hinv).
  apply (DictFacts.inv_back _ _ Hinv).
Qed.

Lemma t2v_known tokens :
  Forall (fun w => is_Some (counts d !! w)) tokens →
  ∃ v, Dict.t2v d tokens = Ok v ∧
       Forall2 (fun w k => word2ind d !! w = Some k) tokens v.
Proof.
  intros Hall. unfold Dict.t2v.
  destruct (for_each_total
    (fun w => if dict_contains (counts d) w
              then dict_getitem (word2ind d) w
              else dict_getitem (word2ind d) "__unk__") tokens) as [v Hv].
  { eapply Forall_impl; [exact Hall |]. intros w Hw. simpl.
    pose proof Hw as ->%dict_contains_true.
    apply counts_word2ind in Hw as [k Hk]. exists k.
    by apply dict_getitem_Ok. }
  exists v. split; [done |].
  apply for_each_Ok in Hv. revert Hall.
  induction Hv as [|w k ws ks Hwk _ IH]; [constructor |].
  intros [Hw Hws]%Forall_cons. constructor; [|by apply IH].
  apply dict_contains_true in Hw. rewrite Hw in Hwk.
  by apply dict_getitem_Ok.
Qed.

Lemma v2t_decodes tokens v :
  Forall2 (fun w k => word2ind d !! w = Some k) tokens v →
  Dict.v2t d v = Ok (join " " tokens).
Proof.
  intros Hv. unfold Dict.v2t.
  assert (for_each (dict_getitem (ind2word d)) v = Ok tokens) as ->.
  { apply for_each_Ok. apply Forall2_flip.
    eapply Forall2_impl; [exact Hv |]. intros w k Hk. simpl.
    apply dict_getitem_Ok. by apply ind2word_word2ind. }
  done.
Qed.

(** Encoding known tokens and decoding them again, for any dictionary
    file. *)
Lemma v2t_t2v tokens :
  Forall (fun w => is_Some (counts d !! w)) tokens →
  ∃ v, Dict.t2v d tokens = Ok v ∧ Dict.v2t d v = Ok (join " " tokens).
Proof.
  intros (v & Hv & Hwk)%t2v_known. exists v. split; [done |].
  by apply v2t_decodes.
Qed.
End Dictionary.

(** C3. For a dictionary loaded from a file, [t2v] on a list of tokens
    returns a list of the same length whose entry for a token [w] is
    [word2ind[w]] when [w] is a key of [counts] (that is, a word of the
    file) and [word2ind['__unk__']] otherwise; where the latter is looked
    up and does not exist, and only then, the lookup raises KeyError. *)
Theorem t2v_spec (is_space : ascii → bool) (dict_raw : list string)
    (d : ChatDictionary) (tokens : list string) :
  Dict.init is_space dict_raw = Ok d →
  (∀ w, is_Some (counts d !! w) ↔
        ∃ es, Dict.entries is_space dict_raw = Ok es ∧ w ∈ es.*1) ∧
  match Dict.t2v d tokens with
  | Ok v =>
      length v = length tokens ∧
      ∀ i w, tokens !! i = Some w →
        (is_Some (counts d !! w) →
         ∃ k, word2ind d !! w = Some k ∧ v !! i = Some k) ∧
        (counts d !! w = None →
         ∃ k, word2ind d !! "__unk__" = Some k ∧ v !! i = Some k)
  | Raise e =>
      e = KeyError ∧ word2ind d !! "__unk__" = None ∧
      ∃ w, w ∈ tokens ∧ counts d !! w = None
  end.
Proof.
  intros Hinit. split; [intros w; by eapply counts_entries |].
  destruct (Dict.t2v d tokens) as [v|e] eqn:Ht2v; unfold Dict.t2v in Ht2v.
  - apply for_each_Ok in Ht2v. split; [symmetry; by eapply Forall2_length |].
    intros i w Hw.
    destruct (Forall2_lookup_l _ _ _ _ _ Ht2v Hw) as (k & Hk & Hwk).
    simpl in Hwk. split.
    + intros Hc%dict_contains_true. rewrite Hc in Hwk.
      apply dict_getitem_Ok in Hwk. eauto.
    + intros Hc%dict_contains_false. rewrite Hc in Hwk.
      apply dict_getitem_Ok in Hwk. eauto.
  - apply for_each_Raise in Ht2v as (w & Hw & Hraise). simpl in Hraise.
    destruct (dict_contains (counts d) w) eqn:Hc.
    + apply dict_contains_true in Hc.
      apply (counts_word2ind _ _ _ Hinit) in Hc as [k Hk].
      apply dict_getitem_Raise in Hraise as [? _]. congruence.
    + apply dict_contains_false in Hc.
      apply dict_getitem_Raise in Hraise as [? ->]. eauto.
Qed.

Lemma t2v_spec_witness :
  Dict.init ascii_is_space demo_dict_file = Ok demo_dict ∧
  match Dict.t2v demo_dict ["hello"; "there"; "world"] with
  | Ok v =>
      length v = 3%nat ∧
      ∀ i w, ["hello"; "there"; "world"] !! i = Some w →
        (is_Some (counts demo_dict !! w) →
         ∃ k, word2ind demo_dict !! w = Some k ∧ v !! i = Some k) ∧
        (counts demo_dict !! w = None →
         ∃ k, word2ind demo_dict !! "__unk__" = Some k ∧ v !! i = Some k)
  | Raise e =>
      e = KeyError ∧ word2ind demo_dict !! "__unk__" = None ∧
      ∃ w, w ∈ ["hello"; "there"; "world"] ∧ counts demo_dict !! w = None
  end.
Proof.
  split; [vm_compute; reflexivity |].
  apply (t2v_spec ascii_is_space demo_dict_file demo_dict
           ["hello"; "there"; "world"]).
  vm_compute; reflexivity.
Defined.

(** C8. When the words of the dictionary file are pairwise distinct,
    [word2ind] and [ind2word] are inverse to each other, and for tokens
    that are all keys of [counts], [v2t(t2v(tokens))] is the space-join of
    the tokens. *)
Theorem v2t_t2v_roundtrip (is_space : ascii → bool) (dict_raw : list string)
    (d : ChatDictionary) (es : list (string * string))
    (tokens : list string) :
  Dict.init is_space dict_raw = Ok d →
  Dict.entries is_space dict_raw = Ok es →
  NoDup es.*1 →
  Forall (fun w => is_Some (counts d !! w)) tokens →
  (∀ w k, word2ind d !! w = Some k ↔ ind2word d !! k = Some w) ∧
  ∃ v, Dict.t2v d tokens = Ok v ∧ Dict.v2t d v = Ok (join " " tokens).
Proof.
  intros Hinit Hes Hnd Hall. split; [|by eapply v2t_t2v].
  destruct (DictFacts.init_inv _ _ _ Hinit) as (es' & Hes' & Hinv).
  assert (es' = es) as -> by congruence.
  intros w k. split.
  - apply (DictFacts.inv_back _ _ Hinv).
  - by apply (DictFacts.inv_forth _ _ Hinv).
Qed.

Lemma v2t_t2v_roundtrip_witness :
  (∀ w k, word2ind demo_dict !! w = Some k ↔ ind2word demo_dict !! k = Some w) ∧
  ∃ v, Dict.t2v demo_dict ["hello"; newline; "world"] = Ok v ∧
       Dict.v2t demo_dict v = Ok (join " " ["hello"; newline; "world"]).
Proof.
  apply (v2t_t2v_roundtrip ascii_is_space demo_dict_file demo_dict
           demo_entries).
  - vm_compute; reflexivity.
  - vm_compute; reflexivity.
  - apply (bool_decide_unpack _). vm_compute; reflexivity.
  - apply (bool_decide_unpack _). vm_compute; reflexivity.
Defined.

(** ** pad_tensor *)

Lemma foldl_max_spec (xs : list nat) : ∀ x : nat,
  (foldl Nat.max x xs = x ∨ foldl Nat.max x xs ∈ xs) ∧
  (x ≤ foldl Nat.max x xs)%nat ∧
  Forall (fun n => (n ≤ foldl Nat.max x xs)%nat) xs.
Proof.
  induction xs as [|y xs IH]; intros x; simpl.
  - split; [by left |]. split; [done | constructor].
  - destruct (IH (Nat.max x y)) as (Hin & Hle & Hall).
    split; [|split; [lia | constructor; [lia | done]]].
    destruct Hin as [Heq | Hin]; [|right; by right].
    rewrite Heq. destruct (Nat.max_spec x y) as [[_ ->] | [_ ->]].
    + right; by left.
    + by left.
Qed.

Lemma py_max_Ok (xs : list nat) :
  xs ≠ [] →
  ∃ m, py_max xs = Ok m ∧ m ∈ xs ∧ Forall (fun n => (n ≤ m)%nat) xs.
Proof.
  destruct xs as [|x xs]; [done |]. intros _. simpl.
  destruct (foldl_max_spec xs x) as (Hin & Hle & Hall).
  eexists. split; [done |]. split.
  - destruct Hin as [-> | Hin]; [by left | by right].
  - by constructor.
Qed.

(** A loop that rewrites row [i] at step [i] rewrites every row once. *)
Lemma foldl_alter_rows {X Y : Type} (g : X → Y → Y)
    (step : list Y → nat * X → list Y) (xs : list X) :
  (∀ out i x, step out (i, x) = alter (g x) i out) →
  ∀ pre rows, length rows = length xs →
    foldl step (pre ++ rows) (zip (seq (length pre) (length xs)) xs)
    = pre ++ zip_with g xs rows.
Proof.
  intros Hstep. induction xs as [|x xs IH]; intros pre rows Hlen.
  - by destruct rows.
  - destruct rows as [|r rows]; [done |]. simpl in *.
    rewrite Hstep.
    replace (length pre) with (length pre + 0)%nat at 1 by lia.
    rewrite alter_app_r. simpl.
    replace (S (length pre)) with (length (pre ++ [g x r]))
      by (rewrite length_app; simpl; lia).
    rewrite (cons_middle (g x r) pre rows), app_assoc.
    rewrite IH by lia. by rewrite <-app_assoc.
Qed.

Lemma pad_tensor_rows (tensors : list (list Z)) sort pad_token :
  tensors ≠ [] →
  ∃ max_t,
    py_max (map length tensors) = Ok max_t ∧
    pad_tensor tensors sort pad_token =
      Ok (map (fun t => t ++ replicate (max_t - length t) pad_token) tensors,
          map length tensors).
Proof.
  intros Hne.
  destruct (py_max_Ok (map length tensors)) as (max_t & Hmax & _ & _).
  { by destruct tensors. }
  exists max_t. split; [done |].
  unfold pad_tensor. rewrite Hmax. simpl. do 2 f_equal.
  unfold enumerate.
  pose proof (foldl_alter_rows
                (fun x : list Z * nat => assign_prefix x.2 x.1)
                (fun output '(i, (tensor, length)) =>
                   alter (assign_prefix length tensor) i output)
                (zip tensors (map length tensors))) as Hfold.
  specialize (Hfold ltac:(by intros out i [t n]) []
                (replicate (length tensors) (replicate max_t pad_token))).
  simpl in Hfold. rewrite Hfold.
  2: { rewrite length_replicate, length_zip, length_map. lia. }
  clear Hmax Hne Hfold.
  induction tensors as [|t ts IH]; simpl; [done |].
  rewrite IH. unfold assign_prefix. by rewrite drop_replicate.
Qed.

(** C2. For a non-empty list of 1-D tensors, [pad_tensor] returns the
    lengths of the tensors and an output of [len(tensors)] rows and
    [max(lengths)] columns, in which row [i] starts with [tensors[i]] and
    holds the pad token in every later position. *)
Theorem pad_tensor_spec (tensors : list (list Z)) (sort : bool)
    (pad_token : Z) :
  tensors ≠ [] →
  ∃ output lengths max_t,
    pad_tensor tensors sort pad_token = Ok (output, lengths) ∧
    py_max lengths = Ok max_t ∧
    max_t ∈ lengths ∧ Forall (fun n => (n ≤ max_t)%nat) lengths ∧
    length output = length tensors ∧
    length lengths = length tensors ∧
    ∀ i t, tensors !! i = Some t →
      lengths !! i = Some (length t) ∧
      ∃ row, output !! i = Some row ∧
             length row = max_t ∧
             take (length t) row = t ∧
             ∀ j, (length t ≤ j < max_t)%nat → row !! j = Some pad_token.
Proof.
  intros Hne.
  destruct (pad_tensor_rows tensors sort pad_token Hne) as (max_t & Hmax & ->).
  destruct (py_max_Ok (map length tensors)) as (m & Hm & Hin & Hall).
  { by destruct tensors. }
  assert (m = max_t) as -> by congruence.
  eexists _, _, max_t. split; [done |].
  repeat split; try done; try apply length_map.
  - rewrite list_lookup_fmap. by rewrite H.
  - assert (length t ≤ max_t)%nat as Hle.
    { eapply Forall_forall in Hall; [exact Hall |].
      apply list_elem_of_fmap. exists t. split; [done |].
      by eapply list_elem_of_lookup_2. }
    eexists. rewrite list_lookup_fmap, H. simpl. split; [done |].
    split; [rewrite length_app, length_replicate; lia |].
    split; [by rewrite take_app_length |].
    intros j Hj. rewrite lookup_app_r by lia.
    apply lookup_replicate_2. lia.
Qed.

Lemma pad_tensor_spec_witness :
  ∃ output lengths max_t,
    pad_tensor [[1; 2]; []; [3; 4; 5]] true 0 = Ok (output, lengths) ∧
    py_max lengths = Ok max_t ∧
    max_t ∈ lengths ∧ Forall (fun n => (n ≤ max_t)%nat) lengths ∧
    length output = 3%nat ∧
    length lengths = 3%nat ∧
    ∀ i t, [[1; 2]; []; [3; 4; 5]] !! i = Some t →
      lengths !! i = Some (length t) ∧
      ∃ row, output !! i = Some row ∧
             length row = max_t ∧
             take (length t) row = t ∧
             ∀ j, (length t ≤ j < max_t)%nat → row !! j = Some 0.
Proof. apply (pad_tensor_spec [[1; 2]; []; [3; 4; 5]] true 0). discriminate. Defined.

(** ** argsort and batchify *)

Section Sorting.
Variable key : nat → nat.

Lemma key_ge_trans : Transitive (flip (key_le key)).
Proof. unfold flip, key_le. intros a b c ??. lia. Qed.

Lemma insert_by_perm x xs : insert_by key x xs ≡ₚ x :: xs.
Proof.
  induction xs as [|y xs IH]; simpl; [done |].
  case_match; [done |]. rewrite IH. apply Permutation_swap.
Qed.

Lemma sorted_perm xs : sorted key xs ≡ₚ xs.
Proof.
  induction xs as [|x xs IH]; simpl; [done |].
  by rewrite insert_by_perm, IH.
Qed.

Lemma insert_by_HdRel y x xs :
  key_le key y x → HdRel (key_le key) y xs → HdRel (key_le key) y (insert_by key x xs).
Proof.
  intros Hyx Hhd. destruct xs as [|z xs]; simpl; [by constructor |].
  case_match; constructor; [done |]. by inversion Hhd.
Qed.

Lemma insert_by_Sorted x xs :
  Sorted (key_le key) xs → Sorted (key_le key) (insert_by key x xs).
Proof.
  induction 1 as [|y xs Hs IH Hhd]; simpl.
  - repeat constructor.
  - case_match eqn:Hcmp.
    + apply Nat.leb_le in Hcmp. repeat constructor; done.
    + apply Nat.leb_gt in Hcmp. constructor; [done |].
      apply insert_by_HdRel; [|done]. unfold key_le. lia.
Qed.

Lemma sorted_Sorted xs : Sorted (key_le key) (sorted key xs).
Proof.
  induction xs as [|x xs IH]; simpl; [constructor |].
  by apply insert_by_Sorted.
Qed.
End Sorting.

Lemma StronglySorted_map_key (key : nat → nat) (l : list nat) :
  StronglySorted (flip (key_le key)) l →
  StronglySorted (flip le) (map key l).
Proof.
  induction 1 as [|x l Hl IH Hx]; simpl; constructor; [done |].
  apply Forall_fmap. eapply Forall_impl; [exact Hx |]. done.
Qed.

Lemma argsort_indices_perm keys descending :
  argsort_indices keys descending ≡ₚ seq 0 (length keys).
Proof.
  unfold argsort_indices.
  destruct descending; [rewrite reverse_Permutation |]; apply sorted_perm.
Qed.

Lemma argsort_indices_descending keys :
  StronglySorted (flip le)
    (map (fun k => nth k keys 0%nat) (argsort_indices keys true)).
Proof.
  apply StronglySorted_map_key.
  apply (@Sorted_StronglySorted _ _ (key_ge_trans _)).
  apply Sorted_reverse, sorted_Sorted.
Qed.

Lemma list_getitem_nat {A : Type} (lst : list A) (i : nat) x :
  lst !! i = Some x → list_getitem lst (Z.of_nat i) = Ok x.
Proof.
  intros Hx. pose proof (lookup_lt_Some _ _ _ Hx) as Hlt.
  unfold list_getitem.
  destruct (Z.ltb_spec (Z.of_nat i) 0) as [?|_]; [lia |].
  destruct (Z.leb_spec 0 (Z.of_nat i)) as [_|?]; [|lia].
  destruct (Z.ltb_spec (Z.of_nat i) (Z.of_nat (length lst))) as [_|?]; [|lia].
  simpl. by rewrite Nat2Z.id, Hx.
Qed.

Lemma take_indices_Ok {A : Type} (lst : list A) (ind : list nat) :
  Forall (fun i => (i < length lst)%nat) ind →
  ∃ out, take_indices lst ind = Ok out ∧
         Forall2 (fun i x => lst !! i = Some x) ind out.
Proof.
  intros Hind. unfold take_indices.
  destruct (for_each_total (fun i => list_getitem lst (Z.of_nat i)) ind)
    as [out Hout].
  { eapply Forall_impl; [exact Hind |]. intros i Hi. simpl.
    destruct (lookup_lt_is_Some_2 lst i Hi) as [x Hx].
    exists x. by apply list_getitem_nat. }
  exists out. split; [done |]. apply for_each_Ok in Hout.
  revert Hind. induction Hout as [|i x ind out Hix _ IH]; [constructor |].
  intros [Hi Hind]%Forall_cons. constructor; [|by apply IH].
  destruct (lookup_lt_is_Some_2 lst i Hi) as [x' Hx'].
  rewrite (list_getitem_nat _ _ _ Hx') in Hix. congruence.
Qed.

Lemma Forall2_map_eq {A B : Type} (f : A → B) (xs : list A) (ys : list B) :
  Forall2 (fun x y => y = f x) xs ys → ys = map f xs.
Proof. induction 1; simpl; congruence. Qed.

(** C1. For a non-empty batch, [batchify] returns a dict whose [text_lens]
    is in non-increasing order, whose four sequences are the padded
    inputs, the input lengths, the padded labels and the label lengths all
    reordered by one permutation [perm] of the batch positions (the one
    that sorts the input lengths in descending order), so that position
    [i] of the output holds the input and the label of the same pair
    [batch[perm[i]]], and whose [use_packed] is [True]. *)
Theorem batchify_spec (batch : list (list Z * list Z)) :
  batch ≠ [] →
  let perm := argsort_indices (map length (map fst batch)) true in
  ∃ tv tl gv gl mx my,
    batchify batch =
      Ok {| text_vecs := PyTensor tv; text_lens := PyList tl;
            target_vecs := PyTensor gv; target_lens := PyList gl;
            use_packed := true |} ∧
    py_max (map length (map fst batch)) = Ok mx ∧
    py_max (map length (map snd batch)) = Ok my ∧
    perm ≡ₚ seq 0 (length batch) ∧
    StronglySorted (flip le) tl ∧
    length tv = length batch ∧ length tl = length batch ∧
    length gv = length batch ∧ length gl = length batch ∧
    ∀ i p, perm !! i = Some p →
      ∃ x y, batch !! p = Some (x, y) ∧
             tv !! i = Some (x ++ replicate (mx - length x) 0) ∧
             tl !! i = Some (length x) ∧
             gv !! i = Some (y ++ replicate (my - length y) 0) ∧
             gl !! i = Some (length y).
Proof.
  intros Hne perm.
  assert (Hperm : perm ≡ₚ seq 0 (length batch)).
  { unfold perm. rewrite argsort_indices_perm. by rewrite !length_map. }
  assert (Hbound : Forall (fun p => (p < length batch)%nat) perm).
  { apply Forall_forall. intros p Hp. rewrite Hperm in Hp.
    apply elem_of_seq in Hp. lia. }
  destruct (pad_tensor_rows (map fst batch) true 0) as (mx & Hmx & Hpx).
  { by destruct batch. }
  destruct (pad_tensor_rows (map snd batch) true 0) as (my & Hmy & Hpy).
  { by destruct batch. }
  set (xrows := map (fun t => t ++ replicate (mx - length t) 0)
                    (map fst batch)) in *.
  set (yrows := map (fun t => t ++ replicate (my - length t) 0)
                    (map snd batch)) in *.
  destruct (take_indices_Ok xrows perm) as (tv & Htv & Htv2).
  { unfold xrows. by rewrite !length_map. }
  destruct (take_indices_Ok (map length (map fst batch)) perm)
    as (tl & Htl & Htl2).
  { by rewrite !length_map. }
  destruct (take_indices_Ok yrows perm) as (gv & Hgv & Hgv2).
  { unfold yrows. by rewrite !length_map. }
  destruct (take_indices_Ok (map length (map snd batch)) perm)
    as (gl & Hgl & Hgl2).
  { by rewrite !length_map. }
  assert (Hlen : length perm = length batch).
  { rewrite Hperm. apply length_seq. }
  exists tv, tl, gv, gl, mx, my.
  split.
  { unfold batchify. rewrite Hpx, Hpy. simpl. unfold argsort.
    cbn -[argsort_indices take_indices]. fold perm.
    by rewrite Htv, Htl, Hgv, Hgl. }
  do 3 (split; [done |]).
  split.
  { assert (tl = map (fun k => nth k (map length (map fst batch)) 0%nat) perm)
      as ->; [|apply argsort_indices_descending].
    apply Forall2_map_eq. eapply Forall2_impl; [exact Htl2 |].
    intros p n Hn. simpl. by rewrite nth_lookup, Hn. }
  split; [by rewrite <-(Forall2_length _ _ _ Htv2) |].
  split; [by rewrite <-(Forall2_length _ _ _ Htl2) |].
  split; [by rewrite <-(Forall2_length _ _ _ Hgv2) |].
  split; [by rewrite <-(Forall2_length _ _ _ Hgl2) |].
  intros i p Hp.
  assert (p < length batch)%nat as Hlt.
  { eapply Forall_forall in Hbound; [exact Hbound |].
    by eapply list_elem_of_lookup_2. }
  destruct (lookup_lt_is_Some_2 batch p Hlt) as [[x y] Hxy].
  exists x, y. split; [done |].
  destruct (Forall2_lookup_l _ _ _ _ _ Htv2 Hp) as (r1 & -> & H1).
  destruct (Forall2_lookup_l _ _ _ _ _ Htl2 Hp) as (r2 & -> & H2).
  destruct (Forall2_lookup_l _ _ _ _ _ Hgv2 Hp) as (r3 & -> & H3).
  destruct (Forall2_lookup_l _ _ _ _ _ Hgl2 Hp) as (r4 & -> & H4).
  unfold xrows in H1. unfold yrows in H3.
  rewrite !list_lookup_fmap, Hxy in H1. rewrite !list_lookup_fmap, Hxy in H2.
  rewrite !list_lookup_fmap, Hxy in H3. rewrite !list_lookup_fmap, Hxy in H4.
  simpl in *. by simplify_eq.
Qed.

Lemma batchify_spec_witness :
  let batch := [([1; 2], [5]); ([3; 4; 5; 6], [7; 8]); ([9], [1; 2; 3])] in
  let perm := argsort_indices (map length (map fst batch)) true in
  ∃ tv tl gv gl mx my,
    batchify batch =
      Ok {| text_vecs := PyTensor tv; text_lens := PyList tl;
            target_vecs := PyTensor gv; target_lens := PyList gl;
            use_packed := true |} ∧
    py_max (map length (map fst batch)) = Ok mx ∧
    py_max (map length (map snd batch)) = Ok my ∧
    perm ≡ₚ seq 0 (length batch) ∧
    StronglySorted (flip le) tl ∧
    length tv = length batch ∧ length tl = length batch ∧
    length gv = length batch ∧ length gl = length batch ∧
    ∀ i p, perm !! i = Some p →
      ∃ x y, batch !! p = Some (x, y) ∧
             tv !! i = Some (x ++ replicate (mx - length x) 0) ∧
             tl !! i = Some (length x) ∧
             gv !! i = Some (y ++ replicate (my - length y) 0) ∧
             gl !! i = Some (length y).
Proof.
  intros batch.
  apply (batchify_spec
           [([1; 2], [5]); ([3; 4; 5; 6], [7; 8]); ([9], [1; 2; 3])]).
  discriminate.
Defined.

(** ** Reordering encoder and decoder states *)

Lemma Forall2_equiv {A B : Type} (P Q : A → B → Prop) l k :
  (∀ x y, P x y ↔ Q x y) → Forall2 P l k ↔ Forall2 Q l k.
Proof.
  intros HPQ. split; intros H; (eapply Forall2_impl; [exact H |]);
    intros x y; apply HPQ.
Qed.

Lemma select_entries_Ok {A : Type} (xs : list A) indices out :
  select_entries xs indices = Ok out ↔ selects xs indices out.
Proof.
  unfold select_entries, selects. rewrite for_each_Ok.
  apply Forall2_equiv. intros i x.
  destruct (Z.leb_spec 0 i) as [Hi|Hi]; simpl.
  - destruct (Z.ltb_spec i (Z.of_nat (length xs))) as [Hlt|Hge].
    + destruct (xs !! Z.to_nat i) as [x'|]; naive_solver.
    + rewrite (lookup_ge_None_2 xs (Z.to_nat i)) by lia. naive_solver.
  - split; [done | lia].
Qed.

Lemma index_select_0_Ok {A : Type} (t : tensor (list A)) indices t' :
  index_select_0 t indices = Ok t' ↔ index_selected_0 t indices t'.
Proof.
  unfold index_select_0, index_selected_0. destruct t' as [dev' xs'].
  case_decide as Hdev; [|naive_solver].
  rewrite bind_Ok. setoid_rewrite select_entries_Ok. simpl. split.
  - intros (xs & Hxs & [= <- <-]). done.
  - intros (_ & -> & Hxs). by exists xs'.
Qed.

Lemma index_select_1_Ok {A : Type} (t : tensor (list (list A))) indices t' :
  index_select_1 t indices = Ok t' ↔ index_selected_1 t indices t'.
Proof.
  unfold index_select_1, index_selected_1. destruct t' as [dev' xs'].
  case_decide as Hdev; [|naive_solver].
  rewrite bind_Ok. setoid_rewrite for_each_Ok. simpl.
  assert (∀ ys, Forall2 (fun row y => select_entries row (tensor_data indices)
                                        = Ok y) (tensor_data t) ys
                ↔ Forall2 (fun row row' => selects row (tensor_data indices)
                                             row') (tensor_data t) ys) as Hiff.
  { intros ys. apply Forall2_equiv. intros ??. apply select_entries_Ok. }
  split.
  - intros (xs & Hxs & [= <- <-]). by rewrite <-Hiff.
  - intros (_ & -> & Hxs). exists xs'. by rewrite Hiff.
Qed.

(** An index-selected list holds, at each position, the entry of the
    source the index at that position names. *)
Lemma selects_lookup {A : Type} (xs : list A) indices out :
  selects xs indices out →
  length out = length indices ∧
  ∀ j i, indices !! j = Some i →
    0 ≤ i < Z.of_nat (length xs) ∧ out !! j = xs !! Z.to_nat i.
Proof.
  intros Hsel. split; [symmetry; by eapply Forall2_length |].
  intros j i Hi.
  destruct (Forall2_lookup_l _ _ _ _ _ Hsel Hi) as (x & Hx & Hi0 & Hxs).
  pose proof (lookup_lt_Some _ _ _ Hxs). split; [lia | congruence].
Qed.

(** C4. [reorder_encoder_states] returns [enc_out] and [attention_mask]
    index-selected along dimension 0 and [hidden] index-selected along
    dimension 1, both members of an [(h, c)] pair and the single tensor
    otherwise; indices that are not a tensor become a tensor on the device
    of the hidden state with the same entries.  It returns exactly when
    each of these selections is defined. *)
Theorem reorder_encoder_states_spec {A B C : Type}
    (enc_out : tensor (list A)) (hidden : hidden_state B)
    (attention_mask : tensor (list C)) (indices : index_arg) :
  let hid := match hidden with HTensor h => h | HTuple h _ => h end in
  let ix := as_index_tensor hid indices in
  match indices with
  | IdxTensor t => ix = t
  | IdxList l => tensor_device ix = tensor_device hid ∧ tensor_data ix = l
  end ∧
  ∀ r,
    reorder_encoder_states (enc_out, hidden, attention_mask) indices = Ok r ↔
    ∃ enc_out' hidden' attention_mask',
      r = (enc_out', hidden', attention_mask') ∧
      index_selected_0 enc_out ix enc_out' ∧
      index_selected_0 attention_mask ix attention_mask' ∧
      match hidden, hidden' with
      | HTensor h, HTensor h' => index_selected_1 h ix h'
      | HTuple h c, HTuple h' c' =>
          index_selected_1 h ix h' ∧ index_selected_1 c ix c'
      | _, _ => False
      end.
Proof.
  intros hid ix. split; [by destruct indices |].
  intros [[enc' hidden'] mask']. unfold reorder_encoder_states.
  destruct hidden as [h | h c]; simpl in hid; fold hid; fold ix.
  - repeat setoid_rewrite bind_Ok.
    setoid_rewrite index_select_0_Ok. setoid_rewrite index_select_1_Ok.
    split.
    + intros (h' & Hh & ? & [= <-] & e & He & m & Hm & [= <- <- <-]).
      by exists e, (HTensor h'), m.
    + intros (e & hd & m & Heq & He & Hm & Hh). simplify_eq.
      destruct hd as [h' | ? ?]; [|done].
      exists h'. split; [done |]. exists (HTensor h'). split; [done |].
      exists e. split; [done |]. by exists m.
  - repeat setoid_rewrite bind_Ok.
    setoid_rewrite index_select_0_Ok. setoid_rewrite index_select_1_Ok.
    split.
    + intros (h' & Hh & ? & (c' & Hc & [= <-]) & e & He & m & Hm
              & [= <- <- <-]).
      by exists e, (HTuple h' c'), m.
    + intros (e & hd & m & Heq & He & Hm & Hh). simplify_eq.
      destruct hd as [? | h' c']; [done |]. destruct Hh as [Hh Hc].
      exists h'. split; [done |]. exists (HTuple h' c').
      split; [by exists c' |].
      exists e. split; [done |]. by exists m.
Qed.

Example reorder_encoder_states_lstm :
  reorder_encoder_states
    (Tensor Cpu [10; 20; 30],
     HTuple (Tensor Cpu [[1; 2; 3]; [4; 5; 6]])
            (Tensor Cpu [[7; 8; 9]; [1; 1; 2]]),
     Tensor Cpu [true; false; true])
    (IdxList [2; 0; 0])
  = Ok (Tensor Cpu [30; 10; 10],
        HTuple (Tensor Cpu [[3; 1; 1]; [6; 4; 4]])
               (Tensor Cpu [[9; 7; 7]; [2; 1; 1]]),
        Tensor Cpu [true; true; true]).
Proof. reflexivity. Qed.

(** On a tensor, [reorder_decoder_incremental_state] is the index
    selection along dimension 1. *)
Lemma reorder_decoder_tensor {A : Type} (t : tensor (list (list A))) inds r :
  reorder_decoder_incremental_state (ITensor t) inds = Ok r ↔
  ∃ t', r = RTensor t' ∧ index_selected_1 t inds t'.
Proof.
  simpl. rewrite bind_Ok. setoid_rewrite index_select_1_Ok. split.
  - intros (t' & Ht' & [= <-]). by exists t'.
  - intros (t' & -> & Ht'). by exists t'.
Qed.

(** The name [self] is not bound in the module. *)
Lemma self_unbound {A : Type} (attr : string) :
  load_global_attr (A := A) "self" attr = Raise NameError.
Proof. reflexivity. Qed.

(** On a tuple with at least one component, the call raises NameError. *)
Lemma reorder_decoder_tuple_raises {A : Type} (x : inc_state A) xs inds :
  reorder_decoder_incremental_state (ITuple (x :: xs)) inds = Raise NameError.
Proof. reflexivity. Qed.

(** C5, at the LSTM pair [(h, c)] with [h = [[1, 2]]], [c = [[3, 4]]] and
    indices [[1, 0]]: the code raises NameError, where reordering each
    component gives [([[2, 1]], [[4, 3]])]. *)
Theorem reorder_decoder_incremental_state_tuple :
  let state := ITuple [ITensor (Tensor Cpu [[1; 2]]);
                       ITensor (Tensor Cpu [[3; 4]])] in
  let inds := Tensor Cpu [1; 0] in
  reorder_decoder_incremental_state state inds = Raise NameError ∧
  reorder_recursively state inds =
    Ok (RTuple [RTensor (Tensor Cpu [[2; 1]]);
                RTensor (Tensor Cpu [[4; 3]])]).
Proof. split; reflexivity. Qed.

(** ** get_nbest_list_from_beam *)

(** C7. With [n_best=None], [get_nbest_list_from_beam] calls
    [beam._get_rescored_finished] once, with [n_best = beam.min_n_best] and
    the given [add_length_penalty], and returns, in the order of the
    hypotheses the beam returned, the pairs of [dictionary.v2t] of the
    token ids and the score. *)
Theorem get_nbest_list_from_beam_spec {S : Type} (beam : Beam S)
    (dictionary : ChatDictionary) (add_length_penalty : bool) :
  let nbest_list :=
    get_rescored_finished beam (min_n_best beam) add_length_penalty in
  let run := get_nbest_list_from_beam beam dictionary None add_length_penalty in
  run.1 = [BeamCall (min_n_best beam) add_length_penalty] ∧
  (∀ out, run.2 = Ok out ↔
     Forall2 (fun hyp o =>
                Dict.v2t dictionary (tensor_data hyp.1) = Ok o.1 ∧
                o.2 = tensor_data hyp.2)
             nbest_list out) ∧
  (∀ e, run.2 = Raise e →
     ∃ hyp, hyp ∈ nbest_list ∧
            Dict.v2t dictionary (tensor_data hyp.1) = Raise e).
Proof.
  intros nbest_list run. split; [done |]. unfold run. simpl. fold nbest_list.
  split.
  - intros out. rewrite for_each_Ok. apply Forall2_equiv.
    intros hyp [text score]. rewrite bind_Ok. simpl. split.
    + intros (text' & Hv & [= <- <-]). done.
    + intros [Hv ->]. by exists text.
  - intros e (hyp & Hin & Hraise)%for_each_Raise. exists hyp.
    split; [done |].
    simpl in Hraise.
    destruct (Dict.v2t dictionary (tensor_data hyp.1)); simpl in Hraise;
      [done | congruence].
Qed.

(** ** ChatDataset *)

Section DatasetFacts.
Variables is_word is_space : ascii → bool.
Variable json_loads : string → result json.

Lemma RETOK_findall_Ok (x : json) (toks : list string) :
  RETOK_findall is_word is_space x = Ok toks ↔
  ∃ s, x = JStr s ∧ toks = findall is_word is_space s.
Proof.
  destruct x; simpl; split; try done; try (by intros (? & ? & ?)).
  - intros [= <-]. by eexists.
  - by intros (? & [= <-] & ->).
Qed.

Lemma target_tokens_Ok (sample : json) (key : string) (toks : list string) :
  (labels ← json_getitem_str sample key;
   first ← json_getitem_0 labels;
   toks ← RETOK_findall is_word is_space first;
   Ok (toks ++ ["__end__"])) = Ok toks ↔
  ∃ labels first,
    json_getitem_str sample key = Ok labels ∧
    json_getitem_0 labels = Ok (JStr first) ∧
    toks = findall is_word is_space first ++ ["__end__"].
Proof.
  repeat setoid_rewrite bind_Ok. setoid_rewrite RETOK_findall_Ok. split.
  - intros (labels & Hl & x & Hx & ? & (first & -> & ->) & [= <-]).
    by exists labels, first.
  - intros (labels & first & Hl & Hf & ->).
    exists labels. split; [done |]. exists (JStr first). split; [done |].
    eexists. split; [by eexists | done].
Qed.

Lemma load_sample_Ok dictionary dt line s :
  dt = "train" ∨ dt = "valid" →
  Dataset.load_sample is_word is_space json_loads dictionary dt line = Ok s ↔
  Dataset.line_encoded is_word is_space json_loads dictionary dt line s.
Proof.
  intros Hdt. unfold Dataset.load_sample, Dataset.line_encoded.
  destruct s as [sj tv gv].
  destruct Hdt as [-> | ->]; cbn [String.eqb Ascii.eqb Bool.eqb andb
    Dataset.target_key sample_json text_vec target_vec];
    repeat setoid_rewrite bind_Ok; setoid_rewrite RETOK_findall_Ok.
  all: split.
  all: try (intros (a & Ha & a0 & Ha0 & a1 & (text & -> & ->) & a2 & Ha2 & a3
                    & (a4 & Ha4 & a5 & Ha5 & a6 & (first & -> & ->) & [= <-])
                    & a7 & Ha7 & [= -> -> ->]);
            by exists text, a4, first).
  all: intros (text & labels & first & H1 & H2 & H3 & H4 & H5 & H6);
    exists sj; (split; [done |]); exists (JStr text); (split; [done |]);
    eexists; (split; [by eexists |]); exists tv; (split; [done |]);
    eexists; (split; [|by exists gv]);
    exists labels; (split; [done |]); exists (JStr first); (split; [done |]);
    eexists; split; [by eexists | done].
Qed.

Lemma init_Ok json_text dictionary dt ds :
  dt = "train" ∨ dt = "valid" →
  Dataset.init is_word is_space json_loads json_text dictionary dt = Ok ds ↔
  Forall2 (Dataset.line_encoded is_word is_space json_loads dictionary dt)
          json_text (samples ds).
Proof.
  intros Hdt. unfold Dataset.init. rewrite bind_Ok.
  setoid_rewrite for_each_Ok. destruct ds as [ss]. simpl. split.
  - intros (ss' & Hss & [= <-]).
    eapply Forall2_impl; [exact Hss |]. intros ??. by apply load_sample_Ok.
  - intros Hss. exists ss. split; [|done].
    eapply Forall2_impl; [exact Hss |]. intros ??. by apply load_sample_Ok.
Qed.
End DatasetFacts.

(** C6. For training or validation data, [ChatDataset] returns exactly
    when every line of the file loads as JSON, has a string under ['text']
    and a string first under its target key, and both token lists are
    encoded by [dictionary.t2v]; the sample of line [i] then holds the
    encoding of [RETOK] on the text and of [RETOK] on the first target
    followed by ['__end__'], [__getitem__(i)] returns this pair, and
    [__len__] returns the number of lines. *)
Theorem ChatDataset_spec (is_word is_space : ascii → bool)
    (json_loads : string → result json) (json_text : list string)
    (dictionary : ChatDictionary) (dt : string) :
  dt = "train" ∨ dt = "valid" →
  ∀ ds,
    (Dataset.init is_word is_space json_loads json_text dictionary dt = Ok ds ↔
     Forall2 (Dataset.line_encoded is_word is_space json_loads dictionary dt)
             json_text (samples ds)) ∧
    (Dataset.init is_word is_space json_loads json_text dictionary dt = Ok ds →
     Dataset.len ds = length json_text ∧
     ∀ i line, json_text !! i = Some line →
       ∃ s, Dataset.line_encoded is_word is_space json_loads dictionary dt
              line s ∧
            Dataset.getitem ds (Z.of_nat i) = Ok (text_vec s, target_vec s)).
Proof.
  intros Hdt ds. split; [by apply init_Ok |].
  intros Hall%init_Ok; [|done]. split.
  - unfold Dataset.len. symmetry. by eapply Forall2_length.
  - intros i line Hline.
    destruct (Forall2_lookup_l _ _ _ _ _ Hall Hline) as (s & Hs & Henc).
    exists s. split; [done |]. unfold Dataset.getitem.
    by rewrite (list_getitem_nat _ _ _ Hs).
Qed.

Lemma ChatDataset_spec_witness :
  (Dataset.init ascii_is_word ascii_is_space demo_json_loads demo_json_text
     demo_dict "train" = Ok demo_dataset ↔
   Forall2 (Dataset.line_encoded ascii_is_word ascii_is_space demo_json_loads
              demo_dict "train")
           demo_json_text (samples demo_dataset)) ∧
  (Dataset.init ascii_is_word ascii_is_space demo_json_loads demo_json_text
     demo_dict "train" = Ok demo_dataset →
   Dataset.len demo_dataset = length demo_json_text ∧
   ∀ i line, demo_json_text !! i = Some line →
     ∃ s, Dataset.line_encoded ascii_is_word ascii_is_space demo_json_loads
            demo_dict "train" line s ∧
          Dataset.getitem demo_dataset (Z.of_nat i)
            = Ok (text_vec s, target_vec s)).
Proof.
  apply (ChatDataset_spec ascii_is_word ascii_is_space demo_json_loads
           demo_json_text demo_dict "train").
  left; reflexivity.
Defined.

Example demo_dataset_items :
  Dataset.init ascii_is_word ascii_is_space demo_json_loads demo_json_text
    demo_dict "train" = Ok demo_dataset ∧
  Dataset.len demo_dataset = 2%nat ∧
  Dataset.getitem demo_dataset 0 = Ok ([3; 1], [3; 5; 2]) ∧
  Dataset.getitem demo_dataset 1 = Ok ([5], [3; 2]) ∧
  Dataset.getitem demo_dataset (-1) = Ok ([5], [3; 2]).
Proof. repeat split; vm_compute; reflexivity. Qed.

(** * Further properties *)

(** ** ChatDictionary: loading *)

Section DictLoading.
Variable is_space : ascii → bool.

(** Any property of the maps that one more entry preserves holds after the
    loop. *)
Lemma init_loop_invariant (P : list (string * string) → ChatDictionary → Prop) :
  (∀ es d w c, P es d →
     P (es ++ [(w, c)])
       {| word2ind := <[w := Z.of_nat (length es)]> (word2ind d);
          ind2word := <[Z.of_nat (length es) := w]> (ind2word d);
          counts := <[w := c]> (counts d) |}) →
  ∀ dict_raw es0 d d',
    P es0 d →
    Dict.init_loop is_space d (Z.of_nat (length es0)) dict_raw = Ok d' →
    ∃ es, Dict.entries is_space dict_raw = Ok es ∧ P (es0 ++ es) d'.
Proof.
  intros Hstep dict_raw. unfold Dict.entries.
  induction dict_raw as [|w rest IH]; intros es0 d d' HP; simpl.
  - intros [= <-]. exists []. by rewrite app_nil_r.
  - unfold Dict.init_step.
    destruct (Dict.parse_entry is_space w) as [[_word _count]|e]; [|done].
    simpl. intros Hloop.
    replace (Z.of_nat (length es0) + 1)
      with (Z.of_nat (length (es0 ++ [(_word, _count)]))) in Hloop
      by (rewrite length_app; simpl; lia).
    apply IH in Hloop as (es & -> & HP'); [|by apply Hstep].
    simpl. exists ((_word, _count) :: es). split; [done |].
    by rewrite <-app_assoc in HP'.
Qed.

Lemma last_entry_inv_step es d w c :
  last_entry_inv es d →
  DictFacts.inv es d →
  last_entry_inv (es ++ [(w, c)])
    {| word2ind := <[w := Z.of_nat (length es)]> (word2ind d);
       ind2word := <[Z.of_nat (length es) := w]> (ind2word d);
       counts := <[w := c]> (counts d) |}.
Proof.
  intros Hlast Hinv w' k. simpl.
  destruct (decide (w = w')) as [->|Hne].
  - rewrite lookup_insert_eq. intros [= <-].
    exists (length es), c. split; [done |].
    split; [by rewrite lookup_app_r, Nat.sub_diag by lia |].
    split; [by rewrite lookup_insert_eq |].
    intros j Hj. rewrite lookup_ge_None_2; [done |].
    rewrite length_fmap, length_app. simpl. lia.
  - rewrite lookup_insert_ne by done. intros Hk.
    destruct (Hlast _ _ Hk) as (n & c' & -> & Hn & Hc & Hlater).
    exists n, c'. split; [done |].
    split; [by apply lookup_app_l_Some |].
    split; [by rewrite lookup_insert_ne |].
    intros j Hj. rewrite fmap_app. simpl.
    destruct (decide (j < length es.*1)%nat) as [Hlt|Hge].
    + rewrite lookup_app_l by done. by apply Hlater.
    + rewrite lookup_app_r by lia.
      destruct (j - length es.*1)%nat as [|m]; simpl; [congruence |].
      by rewrite lookup_nil.
Qed.

Lemma init_last_entry dict_raw d :
  Dict.init is_space dict_raw = Ok d →
  ∃ es, Dict.entries is_space dict_raw = Ok es ∧
        DictFacts.inv es d ∧ last_entry_inv es d.
Proof.
  intros Hinit.
  destruct (init_loop_invariant
              (fun es d => DictFacts.inv es d ∧ last_entry_inv es d))
    with (dict_raw := dict_raw) (es0 := @nil (string * string))
         (d := {| word2ind := ∅; ind2word := ∅; counts := ∅ |}) (d' := d)
    as (es & Hes & Hinv & Hlast).
  - intros es d0 w c [Hinv Hlast]. split.
    + by apply DictFacts.inv_step.
    + by apply last_entry_inv_step.
  - split; [apply DictFacts.inv_empty |]. intros w k. simpl.
    by rewrite lookup_empty.
  - exact Hinit.
  - by exists es.
Qed.

Lemma parse_entry_Ok w p :
  Dict.parse_entry is_space w = Ok p ↔
  ∃ _word _count,
    split tab (strip is_space w) = [_word; _count] ∧
    p = (if String.eqb _word "\n" then newline else _word, _count).
Proof.
  unfold Dict.parse_entry.
  destruct (split tab (strip is_space w)) as [|a [|b [|c l]]]; split;
    try done; try (by intros (? & ? & ? & ?)).
  - intros [= <-]. by exists a, b.
  - by intros (? & ? & [= <- <-] & ->).
Qed.

Lemma parse_entry_Raise w e :
  Dict.parse_entry is_space w = Raise e →
  e = ValueError ∧ length (split tab (strip is_space w)) ≠ 2%nat.
Proof.
  unfold Dict.parse_entry.
  destruct (split tab (strip is_space w)) as [|a [|b [|c l]]]; try done;
    by intros [= <-].
Qed.

Lemma parse_entry_fields w :
  (∃ p, Dict.parse_entry is_space w = Ok p) ↔
  length (split tab (strip is_space w)) = 2%nat.
Proof.
  unfold Dict.parse_entry.
  destruct (split tab (strip is_space w)) as [|a [|b [|c l]]]; split;
    try done; try (by intros [? ?]).
  intros _. by eexists.
Qed.

Lemma init_loop_Raise dict_raw : ∀ d i e,
  Dict.init_loop is_space d i dict_raw = Raise e → e = ValueError.
Proof.
  induction dict_raw as [|w rest IH]; intros d i e; simpl; [done |].
  unfold Dict.init_step.
  destruct (Dict.parse_entry is_space w) as [[_word _count]|e'] eqn:Hp; simpl.
  - apply IH.
  - intros [= <-]. by apply parse_entry_Raise in Hp as [-> _].
Qed.
End DictLoading.

(** X1. [ChatDictionary.__init__] returns exactly when every line of the
    file, stripped, splits at tabs into two fields; otherwise it raises
    ValueError. *)
Theorem init_returns_iff (is_space : ascii → bool) (dict_raw : list string) :
  ((∃ d, Dict.init is_space dict_raw = Ok d) ↔
   Forall (fun w => length (split tab (strip is_space w)) = 2%nat) dict_raw) ∧
  (∀ e, Dict.init is_space dict_raw = Raise e → e = ValueError).
Proof.
  split; [|intros e; apply init_loop_Raise].
  split.
  - intros [d Hd]. destruct (DictFacts.init_inv _ _ _ Hd) as (es & Hes & _).
    apply for_each_Ok in Hes. apply Forall_forall. intros w Hw.
    apply list_elem_of_lookup in Hw as [i Hi].
    destruct (Forall2_lookup_l _ _ _ _ _ Hes Hi) as (p & _ & Hp).
    apply parse_entry_fields. by exists p.
  - intros Hall.
    destruct (for_each_total (Dict.parse_entry is_space) dict_raw) as [es Hes].
    { eapply Forall_impl; [exact Hall |]. intros w Hw.
      by apply parse_entry_fields. }
    by apply (DictFacts.init_loop_total is_space dict_raw es).
Qed.

Lemma entries_length (is_space : ascii → bool) dict_raw es :
  Dict.entries is_space dict_raw = Ok es → length es = length dict_raw.
Proof. intros Hes%for_each_Ok. symmetry. by eapply Forall2_length. Qed.

Lemma entries_lookup (is_space : ascii → bool) dict_raw es n w :
  Dict.entries is_space dict_raw = Ok es →
  es.*1 !! n = Some w ↔
  ∃ line c, dict_raw !! n = Some line ∧
            Dict.parse_entry is_space line = Ok (w, c).
Proof.
  intros Hes%for_each_Ok. rewrite list_lookup_fmap_Some. split.
  - intros ([w' c] & -> & Hn).
    destruct (Forall2_lookup_r _ _ _ _ _ Hes Hn) as (line & Hline & Hp).
    by exists line, c.
  - intros (line & c & Hline & Hp).
    destruct (Forall2_lookup_l _ _ _ _ _ Hes Hline) as (p & Hn & Hp').
    exists (w, c). split; [done |]. congruence.
Qed.

(** X2. After loading, the keys of [ind2word] are the line numbers of
    the file, counted from 0, and [ind2word[k]] is the word of line
    [k]. *)
Theorem ind2word_lines (is_space : ascii → bool) (dict_raw : list string)
    (d : ChatDictionary) :
  Dict.init is_space dict_raw = Ok d →
  ∀ k w,
    ind2word d !! k = Some w ↔
    0 ≤ k < Z.of_nat (length dict_raw) ∧
    ∃ line c, dict_raw !! Z.to_nat k = Some line ∧
              Dict.parse_entry is_space line = Ok (w, c).
Proof.
  intros Hinit k w.
  destruct (DictFacts.init_inv _ _ _ Hinit) as (es & Hes & Hinv).
  rewrite (DictFacts.inv_ind2word _ _ Hinv).
  rewrite (entries_lookup _ _ _ _ _ Hes). split.
  - intros (Hk & line & c & Hline & Hp).
    pose proof (lookup_lt_Some _ _ _ Hline). split; [lia | by eauto].
  - intros ([Hk _] & Hex). done.
Qed.

Lemma ind2word_lines_witness :
  ind2word demo_dict !! 3 = Some "hello" ↔
  0 ≤ 3 < Z.of_nat (length demo_dict_file) ∧
  ∃ line c, demo_dict_file !! Z.to_nat 3 = Some line ∧
            Dict.parse_entry ascii_is_space line = Ok ("hello", c).
Proof.
  apply (ind2word_lines ascii_is_space demo_dict_file demo_dict).
  vm_compute; reflexivity.
Defined.

Lemma size_list_to_set_le (l : list string) :
  (size (list_to_set l : gset string) ≤ length l)%nat.
Proof.
  induction l as [|x l IH]; [vm_compute; lia |].
  rewrite list_to_set_cons. simpl length.
  rewrite size_union_alt, size_singleton.
  pose proof (subseteq_size (list_to_set l ∖ {[x]}) (list_to_set l : gset string)
                ltac:(set_solver)).
  lia.
Qed.

(** X3. [len(dictionary)] is the number of distinct words of the file: at
    most the number of lines, and equal to it when no word is repeated. *)
Theorem len_distinct_words (is_space : ascii → bool) (dict_raw : list string)
    (d : ChatDictionary) (es : list (string * string)) :
  Dict.init is_space dict_raw = Ok d →
  Dict.entries is_space dict_raw = Ok es →
  Dict.len d = Z.of_nat (size (list_to_set es.*1 : gset string)) ∧
  Dict.len d ≤ Z.of_nat (length dict_raw) ∧
  (NoDup es.*1 → Dict.len d = Z.of_nat (length dict_raw)).
Proof.
  intros Hinit Hes.
  destruct (DictFacts.init_inv _ _ _ Hinit) as (es' & Hes' & Hinv).
  assert (es' = es) as -> by congruence.
  assert (dom (counts d) = list_to_set es.*1) as Hdom.
  { apply set_eq. intros w. rewrite elem_of_dom, elem_of_list_to_set.
    apply (DictFacts.inv_counts_dom _ _ Hinv). }
  assert (Dict.len d = Z.of_nat (size (list_to_set es.*1 : gset string)))
    as Hlen.
  { unfold Dict.len. by rewrite <-Hdom, size_dom. }
  pose proof (entries_length _ _ _ Hes) as Hn.
  split; [done |]. rewrite Hlen. split.
  - pose proof (size_list_to_set_le es.*1) as Hle.
    rewrite length_fmap in Hle. lia.
  - intros Hnd. rewrite size_list_to_set by done.
    rewrite length_fmap. lia.
Qed.

Lemma len_distinct_words_witness :
  Dict.len demo_dict
    = Z.of_nat (size (list_to_set demo_entries.*1 : gset string)) ∧
  Dict.len demo_dict ≤ Z.of_nat (length demo_dict_file) ∧
  (NoDup demo_entries.*1 →
   Dict.len demo_dict = Z.of_nat (length demo_dict_file)).
Proof.
  apply (len_distinct_words ascii_is_space demo_dict_file demo_dict
           demo_entries).
  - vm_compute; reflexivity.
  - vm_compute; reflexivity.
Defined.

(** X4. When a word stands on several lines, [word2ind] holds the number
    of the last of them and [counts] the count given there. *)
Theorem word2ind_last_line (is_space : ascii → bool)
    (dict_raw : list string) (d : ChatDictionary)
    (es : list (string * string)) (w : string) (k : Z) :
  Dict.init is_space dict_raw = Ok d →
  Dict.entries is_space dict_raw = Ok es →
  word2ind d !! w = Some k →
  ∃ n c, k = Z.of_nat n ∧ es !! n = Some (w, c) ∧
         counts d !! w = Some c ∧
         ∀ j, (n < j)%nat → es.*1 !! j ≠ Some w.
Proof.
  intros Hinit Hes Hk.
  destruct (init_last_entry _ _ _ Hinit) as (es' & Hes' & _ & Hlast).
  assert (es' = es) as -> by congruence.
  by apply Hlast.
Qed.

Lemma word2ind_last_line_witness :
  let file := ["a" +:+ String tab "1"; "b" +:+ String tab "2";
               "a" +:+ String tab "3"] in
  let d := match Dict.init ascii_is_space file with
           | Ok d => d
           | Raise _ => demo_dict
           end in
  ∃ n c, 2 = Z.of_nat n ∧
         [("a", "1"); ("b", "2"); ("a", "3")] !! n = Some ("a", c) ∧
         counts d !! "a" = Some c ∧
         ∀ j, (n < j)%nat →
              [("a", "1"); ("b", "2"); ("a", "3")].*1 !! j ≠ Some "a".
Proof.
  intros file d.
  apply (word2ind_last_line ascii_is_space file d
           [("a", "1"); ("b", "2"); ("a", "3")] "a" 2).
  - vm_compute; reflexivity.
  - vm_compute; reflexivity.
  - vm_compute; reflexivity.
Defined.

(** ** ChatDictionary: encoding and decoding *)

(** The word [t2v] looks up for a token. *)
Lemma t2v_Ok_lookup (d : ChatDictionary) tokens v :
  Dict.t2v d tokens = Ok v ↔
  Forall2 (fun w k =>
             word2ind d !! (if dict_contains (counts d) w then w
                            else "__unk__") = Some k)
          tokens v.
Proof.
  unfold Dict.t2v. rewrite for_each_Ok. apply Forall2_equiv. intros w k.
  destruct (dict_contains (counts d) w); apply dict_getitem_Ok.
Qed.

Lemma word2ind_range (is_space : ascii → bool) dict_raw d w k :
  Dict.init is_space dict_raw = Ok d →
  word2ind d !! w = Some k →
  0 ≤ k < Z.of_nat (length dict_raw) ∧ ind2word d !! k = Some w.
Proof.
  intros Hinit Hk.
  destruct (DictFacts.init_inv _ _ _ Hinit) as (es & Hes & Hinv).
  pose proof (DictFacts.inv_back _ _ Hinv _ _ Hk) as Hback.
  split; [|done].
  apply (DictFacts.inv_ind2word _ _ Hinv) in Hback as [Hk0 Hlook].
  apply lookup_lt_Some in Hlook. rewrite length_fmap in Hlook.
  rewrite (entries_length _ _ _ Hes) in Hlook. lia.
Qed.

(** X5. When ['__unk__'] is a word of the dictionary file, [t2v] returns
    for every list of tokens, with one id per token. *)
Theorem t2v_total_with_unk (is_space : ascii → bool) (dict_raw : list string)
    (d : ChatDictionary) (tokens : list string) :
  Dict.init is_space dict_raw = Ok d →
  is_Some (counts d !! "__unk__") →
  ∃ v, Dict.t2v d tokens = Ok v ∧ length v = length tokens.
Proof.
  intros Hinit Hunk.
  destruct (for_each_total
    (fun w => if dict_contains (counts d) w
              then dict_getitem (word2ind d) w
              else dict_getitem (word2ind d) "__unk__") tokens) as [v Hv].
  { apply Forall_forall. intros w _. simpl.
    destruct (dict_contains (counts d) w) eqn:Hc.
    - apply dict_contains_true in Hc.
      apply (counts_word2ind _ _ _ Hinit) in Hc as [k Hk].
      exists k. by apply dict_getitem_Ok.
    - apply (counts_word2ind _ _ _ Hinit) in Hunk as [k Hk].
      exists k. by apply dict_getitem_Ok. }
  exists v. split; [done |].
  apply for_each_Ok in Hv. symmetry. by eapply Forall2_length.
Qed.

Lemma t2v_total_with_unk_witness :
  ∃ v, Dict.t2v demo_dict ["who"; "is"; "there"] = Ok v ∧ length v = 3%nat.
Proof.
  apply (t2v_total_with_unk ascii_is_space demo_dict_file demo_dict
           ["who"; "is"; "there"]).
  - vm_compute; reflexivity.
  - apply (bool_decide_unpack _). vm_compute; reflexivity.
Defined.

(** X6. Every id [t2v] returns is the number of a line of the dictionary
    file: at least 0 and below the number of lines. *)
Theorem t2v_ids_in_range (is_space : ascii → bool) (dict_raw : list string)
    (d : ChatDictionary) (tokens : list string) (v : list Z) :
  Dict.init is_space dict_raw = Ok d →
  Dict.t2v d tokens = Ok v →
  Forall (fun k => 0 ≤ k < Z.of_nat (length dict_raw)) v.
Proof.
  intros Hinit Hv%t2v_Ok_lookup.
  induction Hv as [|w k ws ks Hk _ IH]; constructor; [|done].
  by destruct (word2ind_range _ _ _ _ _ Hinit Hk).
Qed.

Lemma t2v_ids_in_range_witness :
  Forall (fun k => 0 ≤ k < Z.of_nat (length demo_dict_file)) [3; 1; 5].
Proof.
  apply (t2v_ids_in_range ascii_is_space demo_dict_file demo_dict
           ["hello"; "there"; "world"] [3; 1; 5]).
  - vm_compute; reflexivity.
  - vm_compute; reflexivity.
Defined.

(** X7. Decoding what [t2v] returned always succeeds, and gives the
    space-join of the tokens with every token that is not a key of
    [counts] replaced by ['__unk__']. *)
Theorem v2t_t2v_unknown (is_space : ascii → bool) (dict_raw : list string)
    (d : ChatDictionary) (tokens : list string) (v : list Z) :
  Dict.init is_space dict_raw = Ok d →
  Dict.t2v d tokens = Ok v →
  Dict.v2t d v =
    Ok (join " " (map (fun w => if dict_contains (counts d) w then w
                                else "__unk__") tokens)).
Proof.
  intros Hinit Hv%t2v_Ok_lookup. unfold Dict.v2t.
  assert (for_each (dict_getitem (ind2word d)) v
          = Ok (map (fun w => if dict_contains (counts d) w then w
                              else "__unk__") tokens)) as ->; [|done].
  apply for_each_Ok.
  induction Hv as [|w k ws ks Hk _ IH]; simpl; constructor; [|done].
  apply dict_getitem_Ok. by eapply ind2word_word2ind.
Qed.

Lemma v2t_t2v_unknown_witness :
  Dict.v2t demo_dict [3; 1; 5] =
    Ok (join " " (map (fun w => if dict_contains (counts demo_dict) w then w
                                else "__unk__")
                      ["hello"; "there"; "world"])).
Proof.
  apply (v2t_t2v_unknown ascii_is_space demo_dict_file demo_dict
           ["hello"; "there"; "world"] [3; 1; 5]).
  - vm_compute; reflexivity.
  - vm_compute; reflexivity.
Defined.

(** X8. [v2t] returns exactly when every id is the number of a line of
    the dictionary file; otherwise it raises KeyError.  A negative id,
    which would count from the end of a list, is not accepted. *)
Theorem v2t_returns_iff (is_space : ascii → bool) (dict_raw : list string)
    (d : ChatDictionary) (list_ids : list Z) :
  Dict.init is_space dict_raw = Ok d →
  ((∃ s, Dict.v2t d list_ids = Ok s) ↔
   Forall (fun k => 0 ≤ k < Z.of_nat (length dict_raw)) list_ids) ∧
  (∀ e, Dict.v2t d list_ids = Raise e → e = KeyError).
Proof.
  intros Hinit.
  destruct (DictFacts.init_inv _ _ _ Hinit) as (es & Hes & Hinv).
  pose proof (entries_length _ _ _ Hes) as Hlen.
  assert (Hdom : ∀ k, is_Some (ind2word d !! k)
                      ↔ 0 ≤ k < Z.of_nat (length dict_raw)).
  { intros k. split.
    - intros [w [Hk Hw%lookup_lt_Some]%(DictFacts.inv_ind2word _ _ Hinv)].
      rewrite length_fmap in Hw. lia.
    - intros Hk.
      destruct (lookup_lt_is_Some_2 es.*1 (Z.to_nat k)) as [w Hw].
      { rewrite length_fmap. lia. }
      exists w. apply (DictFacts.inv_ind2word _ _ Hinv). split; [lia | done]. }
  unfold Dict.v2t. split; [split |].
  - intros [s (ws & Hws%for_each_Ok & _)%bind_Ok].
    apply Forall_forall. intros k Hk.
    apply list_elem_of_lookup in Hk as [i Hi].
    destruct (Forall2_lookup_l _ _ _ _ _ Hws Hi) as (w & _ & Hw).
    apply Hdom. exists w. by apply dict_getitem_Ok.
  - intros Hall.
    destruct (for_each_total (dict_getitem (ind2word d)) list_ids) as [ws Hws].
    { eapply Forall_impl; [exact Hall |]. intros k [w Hw]%Hdom.
      exists w. by apply dict_getitem_Ok. }
    rewrite Hws. by eexists.
  - intros e.
    destruct (for_each (dict_getitem (ind2word d)) list_ids) as [ws|e']
      eqn:Hws; simpl; [done |].
    intros [= <-].
    apply for_each_Raise in Hws as (k & _ & Hk).
    by apply dict_getitem_Raise in Hk as [_ ->].
Qed.

Lemma v2t_returns_iff_witness :
  ((∃ s, Dict.v2t demo_dict [3; -1] = Ok s) ↔
   Forall (fun k => 0 ≤ k < Z.of_nat (length demo_dict_file)) [3; -1]) ∧
  (∀ e, Dict.v2t demo_dict [3; -1] = Raise e → e = KeyError).
Proof.
  apply (v2t_returns_iff ascii_is_space demo_dict_file demo_dict [3; -1]).
  vm_compute; reflexivity.
Defined.

Lemma pred2text_loop_for_each (d : ChatDictionary) items : ∀ words,
  Dict.pred2text_loop d items words =
  (ws ← for_each (dict_getitem (ind2word d)) items; Ok (words ++ ws)).
Proof.
  induction items as [|item rest IH]; intros words; simpl.
  - by rewrite app_nil_r.
  - destruct (dict_getitem (ind2word d) item) as [w|e]; simpl; [|done].
    rewrite IH.
    destruct (for_each (dict_getitem (ind2word d)) rest) as [ws|e]; simpl;
      [|done].
    by rewrite <-app_assoc.
Qed.

(** X9. [pred2text] never stops early: it compares each entry, an int,
    with the strings ['__end__'] and ['__null__'], so it decodes every
    entry of the tensor and returns what [v2t] returns on its list, the
    end and pad tokens included. *)
Theorem pred2text_is_v2t (d : ChatDictionary) (tensor : list Z) :
  Dict.pred2text d tensor = Dict.v2t d tensor.
Proof.
  unfold Dict.pred2text, Dict.v2t. rewrite pred2text_loop_for_each.
  by destruct (for_each (dict_getitem (ind2word d)) tensor).
Qed.

Example pred2text_keeps_end :
  Dict.pred2text demo_dict [3; 5; 2; 0; 0] = Ok "hello world __end__ __null__ __null__".
Proof. vm_compute. reflexivity. Qed.

(** X10. The two-character word backslash-n is never a key of the
    dictionary: a line that gives it makes the newline character a key
    instead. *)
Theorem backslash_n_not_a_key (is_space : ascii → bool)
    (dict_raw : list string) (d : ChatDictionary) :
  Dict.init is_space dict_raw = Ok d →
  counts d !! "\n" = None ∧ word2ind d !! "\n" = None ∧
  (∀ line c, line ∈ dict_raw →
     split tab (strip is_space line) = ["\n"; c] →
     is_Some (word2ind d !! newline)).
Proof.
  intros Hinit.
  destruct (DictFacts.init_inv _ _ _ Hinit) as (es & Hes & Hinv).
  assert (Hnot : "\n" ∉ es.*1).
  { intros Hin. apply list_elem_of_lookup in Hin as [n Hn].
    apply (entries_lookup _ _ _ _ _ Hes) in Hn as (line & c & _ & Hp).
    apply parse_entry_Ok in Hp as (w & c' & _ & Hp).
    destruct (String.eqb_spec w "\n") as [->|Hne]; [done |]. congruence. }
  split; [|split].
  - apply eq_None_not_Some. by rewrite (DictFacts.inv_counts_dom _ _ Hinv).
  - apply eq_None_not_Some. by rewrite (DictFacts.inv_word2ind_dom _ _ Hinv).
  - intros line c Hline Hsplit.
    apply (DictFacts.inv_word2ind_dom _ _ Hinv).
    apply list_elem_of_lookup in Hline as [n Hn].
    apply list_elem_of_lookup. exists n.
    apply (entries_lookup _ _ _ _ _ Hes). exists line, c. split; [done |].
    apply parse_entry_Ok. exists "\n", c. done.
Qed.

Lemma backslash_n_not_a_key_witness :
  counts demo_dict !! "\n" = None ∧ word2ind demo_dict !! "\n" = None ∧
  (∀ line c, line ∈ demo_dict_file →
     split tab (strip ascii_is_space line) = ["\n"; c] →
     is_Some (word2ind demo_dict !! newline)).
Proof.
  apply (backslash_n_not_a_key ascii_is_space demo_dict_file demo_dict).
  vm_compute; reflexivity.
Defined.

(** ** ChatDataset: errors, bounds and targets *)

Lemma list_getitem_Ok {A : Type} (xs : list A) (i : Z) x :
  list_getitem xs i = Ok x ↔
  - Z.of_nat (length xs) ≤ i < Z.of_nat (length xs) ∧
  xs !! Z.to_nat (if i <? 0 then Z.of_nat (length xs) + i else i) = Some x.
Proof.
  unfold list_getitem.
  destruct (Z.ltb_spec i 0) as [Hneg|Hpos].
  - destruct (Z.leb_spec 0 (Z.of_nat (length xs) + i)) as [H0|H0]; simpl.
    + destruct (Z.ltb_spec (Z.of_nat (length xs) + i) (Z.of_nat (length xs)))
        as [_|?]; [|lia].
      destruct (xs !! Z.to_nat (Z.of_nat (length xs) + i)); split;
        try naive_solver.
      intros [= <-]. split; [lia | done].
    + split; [done | lia].
  - destruct (Z.leb_spec 0 i) as [_|?]; [|lia]. simpl.
    destruct (Z.ltb_spec i (Z.of_nat (length xs))) as [Hlt|Hge].
    + destruct (xs !! Z.to_nat i); split; try naive_solver.
      intros [= <-]. split; [lia | done].
    + split; [done | lia].
Qed.

Lemma list_getitem_Raise {A : Type} (xs : list A) (i : Z) e :
  list_getitem xs i = Raise e →
  e = IndexError ∧ ¬ (- Z.of_nat (length xs) ≤ i < Z.of_nat (length xs)).
Proof.
  unfold list_getitem.
  set (j := if i <? 0 then Z.of_nat (length xs) + i else i).
  assert (Hj : - Z.of_nat (length xs) ≤ i < Z.of_nat (length xs)
               ↔ 0 ≤ j < Z.of_nat (length xs)).
  { unfold j. destruct (Z.ltb_spec i 0); lia. }
  destruct (Z.leb_spec 0 j) as [H0|H0]; simpl.
  - destruct (Z.ltb_spec j (Z.of_nat (length xs))) as [Hlt|Hge].
    + destruct (lookup_lt_is_Some_2 xs (Z.to_nat j)) as [x ->]; [lia | done].
    + intros [= <-]. split; [done | lia].
  - intros [= <-]. split; [done | lia].
Qed.

(** X11. [__getitem__(i)] returns exactly for [-len <= i < len], a
    negative [i] counting from the end, and raises IndexError for every
    other [i]. *)
Theorem getitem_bounds (ds : ChatDataset) (i : Z) :
  let n := Z.of_nat (Dataset.len ds) in
  ((∃ p, Dataset.getitem ds i = Ok p) ↔ - n ≤ i < n) ∧
  (∀ e, Dataset.getitem ds i = Raise e → e = IndexError) ∧
  (- n ≤ i < 0 → Dataset.getitem ds i = Dataset.getitem ds (n + i)).
Proof.
  intros n. unfold Dataset.getitem, Dataset.len in *. split; [split |split].
  - intros [p (s & [Hi _]%list_getitem_Ok & _)%bind_Ok]. done.
  - intros Hi.
    destruct (list_getitem (samples ds) i) as [s|e] eqn:Hget.
    + by eexists.
    + apply list_getitem_Raise in Hget as [_ Hget]. done.
  - intros e. destruct (list_getitem (samples ds) i) as [s|e'] eqn:Hget;
      simpl; [done |].
    intros [= <-]. by apply list_getitem_Raise in Hget as [-> _].
  - intros Hi. f_equal. unfold list_getitem. fold n.
    destruct (Z.ltb_spec i 0) as [_|?]; [|lia].
    destruct (Z.ltb_spec (n + i) 0) as [?|_]; [lia |]. done.
Qed.

Section DatasetErrors.
Variables is_word is_space : ascii → bool.
Variable json_loads : string → result json.

Lemma load_sample_other_dt dictionary dt line :
  dt ≠ "train" → dt ≠ "valid" →
  (∃ e, Dataset.load_sample is_word is_space json_loads dictionary dt line
        = Raise e) ∧
  (∀ sample text tv,
     json_loads (rstrip is_space line) = Ok sample →
     json_getitem_str sample "text" = Ok (JStr text) →
     Dict.t2v dictionary (findall is_word is_space text) = Ok tv →
     Dataset.load_sample is_word is_space json_loads dictionary dt line
     = Raise UnboundLocalError).
Proof.
  intros Htrain%String.eqb_neq Hvalid%String.eqb_neq.
  unfold Dataset.load_sample. rewrite Htrain, Hvalid. split.
  - destruct (json_loads (rstrip is_space line)) as [sample|e]; simpl;
      [|by eexists].
    destruct (json_getitem_str sample "text") as [text|e]; simpl;
      [|by eexists].
    destruct (RETOK_findall is_word is_space text) as [toks|e]; simpl;
      [|by eexists].
    destruct (Dict.t2v dictionary toks) as [tv|e]; simpl; by eexists.
  - intros sample text tv H1 H2 H3.
    rewrite H1. simpl. rewrite H2. simpl. by rewrite H3.
Qed.
End DatasetErrors.

(** X12. With a [dt] other than ['train'] and ['valid'], [ChatDataset]
    loads no file that has a line: it raises, and raises
    UnboundLocalError when the text of the first line is read and encoded
    without error.  An empty file loads with any [dt]. *)
Theorem ChatDataset_other_dt (is_word is_space : ascii → bool)
    (json_loads : string → result json) (dictionary : ChatDictionary)
    (dt : string) (line : string) (rest : list string) :
  dt ≠ "train" → dt ≠ "valid" →
  Dataset.init is_word is_space json_loads [] dictionary dt
    = Ok {| samples := [] |} ∧
  (∃ e, Dataset.init is_word is_space json_loads (line :: rest) dictionary dt
        = Raise e) ∧
  (∀ sample text tv,
     json_loads (rstrip is_space line) = Ok sample →
     json_getitem_str sample "text" = Ok (JStr text) →
     Dict.t2v dictionary (findall is_word is_space text) = Ok tv →
     Dataset.init is_word is_space json_loads (line :: rest) dictionary dt
     = Raise UnboundLocalError).
Proof.
  intros Htrain Hvalid. split; [done |].
  destruct (load_sample_other_dt is_word is_space json_loads dictionary dt
              line Htrain Hvalid) as [[e He] Hunbound].
  unfold Dataset.init. simpl. split.
  - rewrite He. by exists e.
  - intros sample text tv H1 H2 H3.
    by rewrite (Hunbound sample text tv H1 H2 H3).
Qed.

Lemma ChatDataset_other_dt_witness :
  Dataset.init ascii_is_word ascii_is_space demo_json_loads [] demo_dict
    "test" = Ok {| samples := [] |} ∧
  (∃ e, Dataset.init ascii_is_word ascii_is_space demo_json_loads
          (demo_line_1 :: [demo_line_2]) demo_dict "test" = Raise e) ∧
  (∀ sample text tv,
     demo_json_loads (rstrip ascii_is_space demo_line_1) = Ok sample →
     json_getitem_str sample "text" = Ok (JStr text) →
     Dict.t2v demo_dict (findall ascii_is_word ascii_is_space text) = Ok tv →
     Dataset.init ascii_is_word ascii_is_space demo_json_loads
       (demo_line_1 :: [demo_line_2]) demo_dict "test"
     = Raise UnboundLocalError).
Proof.
  apply (ChatDataset_other_dt ascii_is_word ascii_is_space demo_json_loads
           demo_dict "test" demo_line_1 [demo_line_2]); discriminate.
Defined.

(** X13. Every stored [target_vec] is one id longer than the tokens of the
    first target and ends with the id [t2v] gives ['__end__']: its index,
    or that of ['__unk__'] when ['__end__'] is not in the dictionary; every
    [text_vec] has one id per token of the text. *)
Theorem target_vec_ends_with_end (is_word is_space : ascii → bool)
    (json_loads : string → result json) (json_text : list string)
    (dictionary : ChatDictionary) (dt : string) (ds : ChatDataset) :
  dt = "train" ∨ dt = "valid" →
  Dataset.init is_word is_space json_loads json_text dictionary dt = Ok ds →
  Forall2
    (fun line s =>
       ∃ sample text labels first body k,
         json_loads (rstrip is_space line) = Ok sample ∧
         json_getitem_str sample "text" = Ok (JStr text) ∧
         json_getitem_str sample (Dataset.target_key dt) = Ok labels ∧
         json_getitem_0 labels = Ok (JStr first) ∧
         length (text_vec s) = length (findall is_word is_space text) ∧
         target_vec s = body ++ [k] ∧
         length body = length (findall is_word is_space first) ∧
         word2ind dictionary !!
           (if dict_contains (counts dictionary) "__end__" then "__end__"
            else "__unk__") = Some k)
    json_text (samples ds).
Proof.
  intros Hdt Hinit%init_Ok; [|done].
  eapply Forall2_impl; [exact Hinit |]. intros line s.
  intros (text & labels & first & H1 & H2 & H3 & H4 & H5 & H6).
  apply t2v_Ok_lookup in H5, H6.
  apply Forall2_app_inv_l in H6 as (body & tail & Hbody & Htail & Heq).
  inversion Htail as [|? k ? ? Hk Hnil]; subst. inversion Hnil; subst.
  exists (sample_json s), text, labels, first, body, k.
  repeat split; try done.
  - symmetry. by eapply Forall2_length.
  - symmetry. by eapply Forall2_length.
Qed.

Lemma target_vec_ends_with_end_witness :
  Forall2
    (fun line s =>
       ∃ sample text labels first body k,
         demo_json_loads (rstrip ascii_is_space line) = Ok sample ∧
         json_getitem_str sample "text" = Ok (JStr text) ∧
         json_getitem_str sample (Dataset.target_key "train") = Ok labels ∧
         json_getitem_0 labels = Ok (JStr first) ∧
         length (text_vec s)
           = length (findall ascii_is_word ascii_is_space text) ∧
         target_vec s = body ++ [k] ∧
         length body = length (findall ascii_is_word ascii_is_space first) ∧
         word2ind demo_dict !!
           (if dict_contains (counts demo_dict) "__end__" then "__end__"
            else "__unk__") = Some k)
    demo_json_text (samples demo_dataset).
Proof.
  apply (target_vec_ends_with_end ascii_is_word ascii_is_space
           demo_json_loads demo_json_text demo_dict "train" demo_dataset).
  - left; reflexivity.
  - vm_compute; reflexivity.
Defined.

(** ** RETOK *)

Section RetokFacts.
Variables is_word is_space : ascii → bool.

Lemma starts_with_word_true (s : string) :
  starts_with_word is_word s = true →
  ∃ c s', s = String c s' ∧ is_word c = true.
Proof. destruct s as [|c s']; simpl; [done |]. intros Hc. by exists c, s'. Qed.

(** The equation of [findall] at a character. *)
Lemma findall_cons (c : ascii) (s' : string) :
  findall is_word is_space (String c s') =
  if is_word c then
    if starts_with_word is_word s' then
      match findall is_word is_space s' with
      | h :: t => String c h :: t
      | [] => [String c ""]
      end
    else String c "" :: findall is_word is_space s'
  else if negb (is_space c) then String c "" :: findall is_word is_space s'
  else if Ascii.eqb c (ascii_of_nat 10)
       then String c "" :: findall is_word is_space s'
  else findall is_word is_space s'.
Proof. reflexivity. Qed.

(** At a word character a match with [\w+] begins. *)
Lemma findall_word_head (s : string) : ∀ c,
  is_word c = true →
  ∃ h t, findall is_word is_space (String c s) = String c h :: t ∧
         Forall (fun c' => is_word c' = true) (list_ascii_of_string h).
Proof.
  induction s as [|c' s' IH]; intros c Hc; rewrite findall_cons, Hc.
  - exists "", []. split; [done | constructor].
  - change (starts_with_word is_word (String c' s')) with (is_word c').
    destruct (is_word c') eqn:Hc'.
    + destruct (IH c' Hc') as (h & t & -> & Hh).
      exists (String c' h), t. split; [done |]. simpl. by constructor.
    + exists "", (findall is_word is_space (String c' s')).
      split; [done | constructor].
Qed.

Lemma findall_tokens (s : string) :
  Forall (fun tok => word_token is_word tok
                     ∨ symbol_token is_word is_space tok)
         (findall is_word is_space s).
Proof.
  induction s as [|c s' IH]; [constructor |].
  destruct (is_word c) eqn:Hc.
  - destruct (findall_word_head s' c Hc) as (h & t & Heq & Hh).
    rewrite Heq. constructor.
    + left. split; [done |]. simpl. by constructor.
    + rewrite findall_cons, Hc in Heq.
      destruct (starts_with_word is_word s').
      * destruct (findall is_word is_space s') as [|h' t']; simplify_eq;
          [constructor | by inversion IH].
      * by simplify_eq.
  - rewrite findall_cons, Hc. destruct (is_space c) eqn:Hs; simpl.
    + destruct (Ascii.eqb_spec c (ascii_of_nat 10)) as [->|Hne]; [|done].
      constructor; [|done]. right. eexists. split; [done |]. by auto.
    + constructor; [|done]. right. eexists. split; [done |]. by auto.
Qed.

Lemma findall_concat (s : string) :
  concat (map list_ascii_of_string (findall is_word is_space s))
  = List.filter (kept_char is_word is_space) (list_ascii_of_string s).
Proof.
  induction s as [|c s' IH]; [done |].
  rewrite findall_cons.
  change (list_ascii_of_string (String c s'))
    with (c :: list_ascii_of_string s').
  change (List.filter (kept_char is_word is_space)
            (c :: list_ascii_of_string s'))
    with (if kept_char is_word is_space c
          then c :: List.filter (kept_char is_word is_space)
                      (list_ascii_of_string s')
          else List.filter (kept_char is_word is_space)
                 (list_ascii_of_string s')).
  rewrite <-IH. unfold kept_char.
  destruct (is_word c) eqn:Hc; simpl.
  - destruct (starts_with_word is_word s'); [|done].
    by destruct (findall is_word is_space s') as [|h t].
  - destruct (is_space c); simpl; [|done].
    by destruct (Ascii.eqb c (ascii_of_nat 10)).
Qed.

Lemma findall_word_token (tok : string) (r : string) :
  word_token is_word tok →
  starts_with_word is_word r = false →
  findall is_word is_space (tok +:+ r) = tok :: findall is_word is_space r.
Proof.
  intros [Hne Hall] Hr. destruct tok as [|c h]; [done |]. clear Hne.
  simpl in Hall. apply Forall_cons in Hall as [Hc Hh].
  revert c Hc. induction h as [|c' h' IH]; intros c Hc.
  - change (String c "" +:+ r) with (String c r).
    by rewrite findall_cons, Hc, Hr.
  - simpl in Hh. apply Forall_cons in Hh as [Hc' Hh'].
    specialize (IH Hh' c' Hc').
    change (String c (String c' h') +:+ r)
      with (String c (String c' h' +:+ r)).
    rewrite findall_cons, Hc, IH.
    change (String c' h' +:+ r) with (String c' (h' +:+ r)).
    change (starts_with_word is_word (String c' (h' +:+ r)))
      with (is_word c').
    by rewrite Hc'.
Qed.

Lemma findall_symbol_token (tok : string) (r : string) :
  symbol_token is_word is_space tok →
  findall is_word is_space (tok +:+ r) = tok :: findall is_word is_space r.
Proof.
  intros (c & -> & Hc & Hs).
  change (String c "" +:+ r) with (String c r).
  rewrite findall_cons, Hc.
  destruct Hs as [-> | ->]; [done |].
  by destruct (is_space (ascii_of_nat 10)).
Qed.

Lemma findall_token (tok : string) (r : string) :
  word_token is_word tok ∨ symbol_token is_word is_space tok →
  starts_with_word is_word r = false →
  findall is_word is_space (tok +:+ r) = tok :: findall is_word is_space r.
Proof.
  intros [Hw | Hs] Hr; [by apply findall_word_token |].
  by apply findall_symbol_token.
Qed.

Lemma findall_join (toks : list string) :
  is_word " "%char = false → is_space " "%char = true →
  Forall (fun tok => word_token is_word tok
                     ∨ symbol_token is_word is_space tok) toks →
  findall is_word is_space (join " " toks) = toks.
Proof.
  intros Hw Hs. induction 1 as [|tok toks Htok Htoks IH]; [done |].
  destruct toks as [|tok' toks'].
  - change (join " " [tok]) with tok.
    replace tok with (tok +:+ "") at 1.
    + by rewrite findall_token.
    + clear. induction tok as [|c t IHt]; [done |].
      change (String c t +:+ "") with (String c (t +:+ "")). by f_equal.
  - change (join " " (tok :: tok' :: toks'))
      with (tok +:+ String " "%char (join " " (tok' :: toks'))).
    rewrite findall_token; [|done | simpl; by rewrite Hw].
    by rewrite findall_cons, Hw, Hs, IH.
Qed.
End RetokFacts.

(** X14. Every token [RETOK.findall] returns is either a non-empty run of
    word characters or one character that is no word character and is
    either no whitespace or the newline; no token is empty. *)
Theorem RETOK_tokens_shape (is_word is_space : ascii → bool) (s : string) :
  Forall (fun tok => tok ≠ "" ∧
                     (word_token is_word tok
                      ∨ symbol_token is_word is_space tok))
         (findall is_word is_space s).
Proof.
  eapply Forall_impl; [apply findall_tokens |]. intros tok Htok.
  split; [|done]. destruct Htok as [[Hne _] | (c & -> & _)]; done.
Qed.

(** X15. [RETOK.findall] loses nothing but whitespace other than
    newlines: the characters of its tokens, in order, are the characters of
    the string with that whitespace removed. *)
Theorem RETOK_keeps_characters (is_word is_space : ascii → bool)
    (s : string) :
  concat (map list_ascii_of_string (findall is_word is_space s))
  = List.filter (kept_char is_word is_space) (list_ascii_of_string s).
Proof. apply findall_concat. Qed.

(** X16. When the space is whitespace and no word character, tokenizing
    the space-join of the tokens of a string gives the same tokens
    again. *)
Theorem RETOK_join_stable (is_word is_space : ascii → bool) (s : string) :
  is_word " "%char = false → is_space " "%char = true →
  findall is_word is_space (join " " (findall is_word is_space s))
  = findall is_word is_space s.
Proof.
  intros Hw Hs. apply findall_join; [done | done |]. apply findall_tokens.
Qed.

Lemma RETOK_join_stable_witness :
  findall ascii_is_word ascii_is_space
    (join " " (findall ascii_is_word ascii_is_space "it's  ok,then"))
  = findall ascii_is_word ascii_is_space "it's  ok,then".
Proof.
  apply (RETOK_join_stable ascii_is_word ascii_is_space "it's  ok,then");
    reflexivity.
Defined.

(** ** argsort, pad_tensor and batchify: order, errors and shapes *)

Lemma take_indices_map {A : Type} (dflt : A) (lst : list A) (ind : list nat) :
  Forall (fun i => (i < length lst)%nat) ind →
  take_indices lst ind = Ok (map (fun i => nth i lst dflt) ind).
Proof.
  intros Hind. unfold take_indices. apply for_each_Ok.
  induction Hind as [|i ind Hi _ IH]; simpl; constructor; [|done].
  apply list_getitem_nat. rewrite nth_lookup.
  by destruct (lookup_lt_is_Some_2 lst i Hi) as [x ->].
Qed.

Lemma take_indices_Raise {A : Type} (lst : list A) (ind : list nat) e :
  take_indices lst ind = Raise e →
  e = IndexError ∧ ∃ i, i ∈ ind ∧ (length lst ≤ i)%nat.
Proof.
  intros (i & Hi & Hget)%for_each_Raise.
  apply list_getitem_Raise in Hget as [-> Hout].
  split; [done |]. exists i. split; [done | lia].
Qed.

Lemma take_indices_length {A : Type} (lst : list A) (ind : list nat) out :
  take_indices lst ind = Ok out →
  length out = length ind ∧ Forall (fun i => (i < length lst)%nat) ind.
Proof.
  intros Hout%for_each_Ok. split; [symmetry; by eapply Forall2_length |].
  induction Hout as [|i x ind out Hix _ IH]; constructor; [|done].
  apply list_getitem_Ok in Hix as [Hi _]. lia.
Qed.

Lemma argsort_indices_bound keys descending :
  Forall (fun p => (p < length keys)%nat) (argsort_indices keys descending).
Proof.
  apply Forall_forall. intros p Hp.
  rewrite argsort_indices_perm in Hp. apply elem_of_seq in Hp. lia.
Qed.

Lemma batchify_rows (batch : list (list Z * list Z)) :
  batch ≠ [] →
  let perm := argsort_indices (map length (map fst batch)) true in
  ∃ mx my,
    py_max (map length (map fst batch)) = Ok mx ∧
    py_max (map length (map snd batch)) = Ok my ∧
    batchify batch =
      Ok {| text_vecs :=
              PyTensor (map (fun p => nth p (map (padded mx 0)
                                               (map fst batch)) []) perm);
            text_lens :=
              PyList (map (fun p => nth p (map length (map fst batch)) 0%nat)
                          perm);
            target_vecs :=
              PyTensor (map (fun p => nth p (map (padded my 0)
                                               (map snd batch)) []) perm);
            target_lens :=
              PyList (map (fun p => nth p (map length (map snd batch)) 0%nat)
                          perm);
            use_packed := true |}.
Proof.
  intros Hne perm.
  pose proof (argsort_indices_bound (map length (map fst batch)) true)
    as Hbound.
  fold perm in Hbound. rewrite !length_map in Hbound.
  destruct (pad_tensor_rows (map fst batch) true 0) as (mx & Hmx & Hpx).
  { by destruct batch. }
  destruct (pad_tensor_rows (map snd batch) true 0) as (my & Hmy & Hpy).
  { by destruct batch. }
  exists mx, my. do 2 (split; [done |]).
  unfold batchify. rewrite Hpx, Hpy. simpl. unfold argsort.
  cbn -[argsort_indices take_indices]. fold perm.
  rewrite (take_indices_map [] _ perm) by (by rewrite !length_map).
  rewrite (take_indices_map 0%nat (map length (map fst batch)) perm)
    by (by rewrite !length_map).
  rewrite (take_indices_map [] _ perm) by (by rewrite !length_map).
  rewrite (take_indices_map 0%nat (map length (map snd batch)) perm)
    by (by rewrite !length_map).
  done.
Qed.

(** X17. [pad_tensor] and [batchify] raise only on the empty list, where
    [max] of no lengths raises ValueError. *)
Theorem batchify_raises_iff_empty (batch : list (list Z * list Z))
    (tensors : list (list Z)) (sort : bool) (pad_token : Z) (e : exn) :
  (pad_tensor tensors sort pad_token = Raise e ↔
   tensors = [] ∧ e = ValueError) ∧
  (batchify batch = Raise e ↔ batch = [] ∧ e = ValueError).
Proof.
  split; split.
  - destruct tensors as [|t ts]; [by intros [= <-] |].
    destruct (pad_tensor_rows (t :: ts) sort pad_token) as (? & _ & ->);
      done.
  - by intros [-> ->].
  - destruct batch as [|b bs]; [by intros [= <-] |].
    destruct (batchify_rows (b :: bs)) as (? & ? & _ & _ & ->); done.
  - by intros [-> ->].
Qed.

Section Stability.
Variable keys : list nat.

Lemma key_index_lt_trans : Transitive (key_index_lt keys).
Proof. unfold key_index_lt. intros a b c ??. lia. Qed.

Lemma key_index_gt_trans : Transitive (flip (key_index_lt keys)).
Proof. unfold flip, key_index_lt. intros a b c ??. lia. Qed.

Lemma key_index_lt_antisymm : AntiSymm (=) (key_index_lt keys).
Proof. unfold key_index_lt. intros a b ??. lia. Qed.

Lemma insert_by_stable x xs :
  Forall (fun y => (x < y)%nat) xs →
  StronglySorted (key_index_lt keys) xs →
  StronglySorted (key_index_lt keys)
    (insert_by (fun k => nth k keys 0%nat) x xs).
Proof.
  intros Hx Hs. induction Hs as [|y xs Hs IH Hy]; simpl.
  - repeat constructor.
  - apply Forall_cons in Hx as [Hxy Hx].
    destruct (Nat.leb_spec (nth x keys 0%nat) (nth y keys 0%nat)) as [Hle|Hgt].
    + constructor; [by constructor |]. constructor.
      * unfold key_index_lt. lia.
      * apply Forall_forall. intros z Hz.
        rewrite Forall_forall in Hx, Hy.
        specialize (Hx z Hz). specialize (Hy z Hz).
        unfold key_index_lt in *. lia.
    + constructor; [by apply IH |].
      rewrite insert_by_perm. constructor; [|done].
      unfold key_index_lt. lia.
Qed.

Lemma sorted_stable xs :
  StronglySorted lt xs →
  StronglySorted (key_index_lt keys) (sorted (fun k => nth k keys 0%nat) xs).
Proof.
  induction 1 as [|x xs Hs IH Hx]; simpl; [constructor |].
  apply insert_by_stable; [|done]. by rewrite sorted_perm.
Qed.

Lemma seq_increasing a n : StronglySorted lt (seq a n).
Proof.
  revert a. induction n as [|n IH]; intros a; simpl; constructor; [done |].
  apply Forall_forall. intros b Hb%elem_of_seq. lia.
Qed.

Lemma argsort_indices_stable :
  StronglySorted (key_index_lt keys) (argsort_indices keys false).
Proof. apply sorted_stable, seq_increasing. Qed.

Lemma argsort_indices_reverse :
  argsort_indices keys true = reverse (argsort_indices keys false).
Proof. reflexivity. Qed.
End Stability.

(** X18. [argsort] is stable in ascending order: positions with equal keys
    keep their order.  In descending order it is the exact reverse, so
    positions with equal keys come out latest first. *)
Theorem argsort_stable (keys : list nat) :
  StronglySorted (key_index_lt keys) (argsort_indices keys false) ∧
  StronglySorted (flip (key_index_lt keys)) (argsort_indices keys true) ∧
  argsort_indices keys true = reverse (argsort_indices keys false).
Proof.
  split; [apply argsort_indices_stable |]. split; [|done].
  rewrite argsort_indices_reverse.
  apply (@Sorted_StronglySorted _ _ (key_index_gt_trans keys)).
  apply Sorted_reverse, StronglySorted_Sorted, argsort_indices_stable.
Qed.

Example argsort_ties :
  argsort_indices [2; 1; 2; 1]%nat false = [1; 3; 0; 2]%nat ∧
  argsort_indices [2; 1; 2; 1]%nat true = [2; 0; 3; 1]%nat.
Proof. split; reflexivity. Qed.

Lemma take_indices_argsort_iff {A : Type} (lst : list A) keys descending :
  (∃ out, take_indices lst (argsort_indices keys descending) = Ok out) ↔
  (length keys ≤ length lst)%nat.
Proof.
  split.
  - intros [out [_ Hall]%take_indices_length].
    destruct (length keys) as [|n] eqn:Hn; [lia |].
    rewrite Forall_forall in Hall. apply (Hall n).
    rewrite argsort_indices_perm, Hn. apply elem_of_seq. lia.
  - intros Hle.
    destruct (take_indices_Ok lst (argsort_indices keys descending))
      as (out & Hout & _); [|by exists out].
    eapply Forall_impl; [apply argsort_indices_bound |]. simpl. lia.
Qed.

Lemma argsort_item_Ok keys descending lst o :
  match lst with
  | PyTensor rows =>
      r ← take_indices rows (argsort_indices keys descending);
      Ok (PyTensor r)
  | PyList xs =>
      r ← take_indices xs (argsort_indices keys descending); Ok (PyList r)
  end = Ok o →
  (length keys ≤ pyseq_len lst)%nat ∧ pyseq_len o = length keys ∧
  match lst, o with
  | PyTensor _, PyTensor _ | PyList _, PyList _ => True
  | _, _ => False
  end.
Proof.
  assert (Hlen : length (argsort_indices keys descending) = length keys).
  { rewrite argsort_indices_perm. apply length_seq. }
  destruct lst as [rows | xs]; intros (r & Hr & [= <-])%bind_Ok; simpl.
  - split; [apply (take_indices_argsort_iff rows keys descending); eauto |].
    apply take_indices_length in Hr as [-> _]. done.
  - split; [apply (take_indices_argsort_iff xs keys descending); eauto |].
    apply take_indices_length in Hr as [-> _]. done.
Qed.

(** X19. [argsort] returns exactly when every list is at least as long as
    [keys]; each reordered list then has [len(keys)] entries and is of the
    kind (tensor or list) it was, so entries beyond [len(keys)] are
    dropped; otherwise it raises IndexError. *)
Theorem argsort_returns_iff (keys : list nat) (lists : list pyseq)
    (descending : bool) :
  ((∃ out, argsort keys lists descending = Ok out) ↔
   Forall (fun lst => (length keys ≤ pyseq_len lst)%nat) lists) ∧
  (∀ e, argsort keys lists descending = Raise e → e = IndexError) ∧
  (∀ out, argsort keys lists descending = Ok out →
     Forall2 (fun lst o =>
                pyseq_len o = length keys ∧
                match lst, o with
                | PyTensor _, PyTensor _ | PyList _, PyList _ => True
                | _, _ => False
                end)
             lists out).
Proof.
  unfold argsort. split; [split |split].
  - intros [out Hout%for_each_Ok]. apply Forall_forall. intros lst Hlst.
    apply list_elem_of_lookup in Hlst as [i Hi].
    destruct (Forall2_lookup_l _ _ _ _ _ Hout Hi) as (o & _ & Ho).
    by apply argsort_item_Ok in Ho as [? _].
  - intros Hall. apply for_each_total.
    eapply Forall_impl; [exact Hall |]. intros [rows | xs] Hle; simpl in *.
    + apply (take_indices_argsort_iff rows keys descending) in Hle
        as [out ->]. by eexists.
    + apply (take_indices_argsort_iff xs keys descending) in Hle
        as [out ->]. by eexists.
  - intros e (lst & _ & Hraise)%for_each_Raise.
    destruct lst as [rows | xs].
    + destruct (take_indices rows (argsort_indices keys descending))
        as [r|e'] eqn:Hr; simpl in Hraise; [done |].
      apply take_indices_Raise in Hr as [-> _]. congruence.
    + destruct (take_indices xs (argsort_indices keys descending))
        as [r|e'] eqn:Hr; simpl in Hraise; [done |].
      apply take_indices_Raise in Hr as [-> _]. congruence.
  - intros out Hout%for_each_Ok.
    eapply Forall2_impl; [exact Hout |]. intros lst o Ho.
    by apply argsort_item_Ok in Ho as [_ ?].
Qed.

Lemma map_nth_seq {A : Type} (dflt : A) (l : list A) :
  map (fun p => nth p l dflt) (seq 0 (length l)) = l.
Proof.
  apply list_eq. intros i. rewrite list_lookup_fmap.
  destruct (decide (i < length l)%nat) as [Hlt|Hge].
  - rewrite lookup_seq_lt by done. simpl. rewrite nth_lookup.
    by destruct (lookup_lt_is_Some_2 l i Hlt) as [x ->].
  - rewrite lookup_seq_ge by lia. simpl. symmetry.
    apply lookup_ge_None_2. lia.
Qed.

Lemma map_nth_perm {A : Type} (dflt : A) (l : list A) (perm : list nat) :
  perm ≡ₚ seq 0 (length l) → map (fun p => nth p l dflt) perm ≡ₚ l.
Proof.
  intros Hperm.
  etrans; [apply (Permutation_map (fun p => nth p l dflt)), Hperm |].
  by rewrite map_nth_seq.
Qed.

Lemma padded_length max_t pad_token t :
  (length t ≤ max_t)%nat → length (padded max_t pad_token t) = max_t.
Proof.
  intros Hle. unfold padded. rewrite length_app, length_replicate. lia.
Qed.

Lemma padded_rows_width max_t (ts : list (list Z)) (perm : list nat) :
  Forall (fun n => (n ≤ max_t)%nat) (map length ts) →
  Forall (fun p => (p < length ts)%nat) perm →
  Forall (fun row => length row = max_t)
         (map (fun p => nth p (map (padded max_t 0) ts) []) perm).
Proof.
  intros Hmax Hperm. apply Forall_fmap.
  eapply Forall_impl; [exact Hperm |]. intros p Hp. simpl.
  destruct (lookup_lt_is_Some_2 ts p Hp) as [t Ht].
  rewrite nth_lookup, list_lookup_fmap, Ht. simpl.
  apply padded_length.
  rewrite Forall_forall in Hmax. apply Hmax.
  apply list_elem_of_fmap. exists t. split; [done |].
  by eapply list_elem_of_lookup_2.
Qed.

(** X20. In the batch [batchify] returns, [text_vecs] is rectangular and
    its number of columns is [text_lens[0]], the longest input;
    [target_vecs] is rectangular with as many columns as the longest label,
    which need not stand first in [target_lens]. *)
Theorem batchify_shapes (batch : list (list Z * list Z)) :
  batch ≠ [] →
  ∃ tv tl gv gl mx my,
    batchify batch =
      Ok {| text_vecs := PyTensor tv; text_lens := PyList tl;
            target_vecs := PyTensor gv; target_lens := PyList gl;
            use_packed := true |} ∧
    head tl = Some mx ∧
    Forall (fun row => length row = mx) tv ∧
    Forall (fun row => length row = my) gv ∧
    my ∈ gl ∧ Forall (fun n => (n ≤ my)%nat) gl.
Proof.
  intros Hne.
  destruct (batchify_rows batch Hne) as (mx & my & Hmx & Hmy & Hb).
  set (perm := argsort_indices (map length (map fst batch)) true) in *.
  assert (Hperm : perm ≡ₚ seq 0 (length batch)).
  { unfold perm. rewrite argsort_indices_perm. by rewrite !length_map. }
  assert (Hbound : Forall (fun p => (p < length batch)%nat) perm).
  { apply Forall_forall. intros p Hp. rewrite Hperm in Hp.
    apply elem_of_seq in Hp. lia. }
  destruct (py_max_Ok (map length (map fst batch))) as (mx' & Hmx' & Hx1 & Hx2).
  { by destruct batch. }
  destruct (py_max_Ok (map length (map snd batch))) as (my' & Hmy' & Hy1 & Hy2).
  { by destruct batch. }
  assert (mx' = mx) as -> by congruence.
  assert (my' = my) as -> by congruence.
  eexists _, _, _, _, mx, my. split; [exact Hb |].
  assert (Hxperm : map (fun p => nth p (map length (map fst batch)) 0%nat) perm
                   ≡ₚ map length (map fst batch)).
  { apply map_nth_perm. by rewrite !length_map. }
  assert (Hyperm : map (fun p => nth p (map length (map snd batch)) 0%nat) perm
                   ≡ₚ map length (map snd batch)).
  { apply map_nth_perm. by rewrite !length_map. }
  split; [|split; [|split; [|split]]].
  - pose proof (argsort_indices_descending (map length (map fst batch)))
      as Hsorted. fold perm in Hsorted.
    rewrite <-Hxperm in Hx1, Hx2.
    destruct (map (fun p => nth p (map length (map fst batch)) 0%nat) perm)
      as [|h tl]; [by apply elem_of_nil in Hx1 |].
    simpl. f_equal.
    apply StronglySorted_inv in Hsorted as [_ Hh].
    apply Forall_cons in Hx2 as [Hle _].
    apply elem_of_cons in Hx1 as [-> | Hin]; [done |].
    rewrite Forall_forall in Hh. specialize (Hh mx Hin). simpl in Hh.
    unfold flip in Hh. lia.
  - apply padded_rows_width; [done | by rewrite length_map].
  - apply padded_rows_width; [done | by rewrite length_map].
  - by rewrite Hyperm.
  - by rewrite Hyperm.
Qed.

Lemma batchify_shapes_witness :
  ∃ tv tl gv gl mx my,
    batchify [([1; 2], [5]); ([3; 4; 5; 6], [7; 8]); ([9], [1; 2; 3])] =
      Ok {| text_vecs := PyTensor tv; text_lens := PyList tl;
            target_vecs := PyTensor gv; target_lens := PyList gl;
            use_packed := true |} ∧
    head tl = Some mx ∧
    Forall (fun row => length row = mx) tv ∧
    Forall (fun row => length row = my) gv ∧
    my ∈ gl ∧ Forall (fun n => (n ≤ my)%nat) gl.
Proof.
  apply (batchify_shapes
           [([1; 2], [5]); ([3; 4; 5; 6], [7; 8]); ([9], [1; 2; 3])]).
  discriminate.
Defined.

Lemma StronglySorted_le_nth (l : list nat) :
  StronglySorted le l →
  ∀ i j, (i ≤ j < length l)%nat → (nth i l 0 ≤ nth j l 0)%nat.
Proof.
  induction 1 as [|x l Hs IH Hx]; intros i j Hij; simpl in *; [lia |].
  destruct i as [|i], j as [|j]; try lia.
  - rewrite Forall_forall in Hx. apply Hx.
    rewrite nth_lookup.
    destruct (lookup_lt_is_Some_2 l j ltac:(lia)) as [y Hy].
    rewrite Hy. simpl. by eapply list_elem_of_lookup_2.
  - apply IH. lia.
Qed.

Lemma seq_key_sorted (keys : list nat) a n :
  StronglySorted le keys → (a + n ≤ length keys)%nat →
  StronglySorted (key_index_lt keys) (seq a n).
Proof.
  intros Hs. revert a. induction n as [|n IH]; intros a Han; simpl;
    constructor; [apply IH; lia |].
  apply Forall_forall. intros b Hb%elem_of_seq.
  pose proof (StronglySorted_le_nth keys Hs a b ltac:(lia)).
  unfold key_index_lt. lia.
Qed.

Lemma argsort_indices_sorted_keys (keys : list nat) :
  StronglySorted le keys →
  argsort_indices keys true = reverse (seq 0 (length keys)).
Proof.
  intros Hs. rewrite argsort_indices_reverse. f_equal.
  apply (@StronglySorted_unique _ _ (key_index_lt_antisymm keys)).
  - apply argsort_indices_stable.
  - by apply seq_key_sorted.
  - apply argsort_indices_perm.
Qed.

Lemma map_nth_reverse_seq {A : Type} (dflt : A) (l : list A) :
  map (fun p => nth p l dflt) (reverse (seq 0 (length l))) = reverse l.
Proof.
  change (map (fun p => nth p l dflt) (reverse (seq 0 (length l))))
    with ((fun p => nth p l dflt) <$> reverse (seq 0 (length l))).
  rewrite fmap_reverse. f_equal. apply map_nth_seq.
Qed.

(** X21. When the inputs of a batch come in non-decreasing length, equal
    lengths included, [batchify] returns the batch in reverse order. *)
Theorem batchify_reverses_sorted (batch : list (list Z * list Z)) :
  batch ≠ [] →
  StronglySorted le (map length (map fst batch)) →
  ∃ mx my,
    py_max (map length (map fst batch)) = Ok mx ∧
    py_max (map length (map snd batch)) = Ok my ∧
    batchify batch =
      Ok {| text_vecs :=
              PyTensor (reverse (map (padded mx 0) (map fst batch)));
            text_lens := PyList (reverse (map length (map fst batch)));
            target_vecs :=
              PyTensor (reverse (map (padded my 0) (map snd batch)));
            target_lens := PyList (reverse (map length (map snd batch)));
            use_packed := true |}.
Proof.
  intros Hne Hs.
  destruct (batchify_rows batch Hne) as (mx & my & Hmx & Hmy & Hb).
  exists mx, my. do 2 (split; [done |]). rewrite Hb.
  rewrite (argsort_indices_sorted_keys _ Hs). rewrite !length_map.
  assert (Hn1 : length batch = length (map (padded mx 0) (map fst batch)))
    by (by rewrite !length_map).
  assert (Hn2 : length batch = length (map length (map fst batch)))
    by (by rewrite !length_map).
  assert (Hn3 : length batch = length (map (padded my 0) (map snd batch)))
    by (by rewrite !length_map).
  assert (Hn4 : length batch = length (map length (map snd batch)))
    by (by rewrite !length_map).
  do 2 f_equal.
  - f_equal. rewrite Hn1 at 1. apply map_nth_reverse_seq.
  - f_equal. rewrite Hn2 at 1. apply map_nth_reverse_seq.
  - f_equal. rewrite Hn3 at 1. apply map_nth_reverse_seq.
  - f_equal. rewrite Hn4 at 1. apply map_nth_reverse_seq.
Qed.

Lemma batchify_reverses_sorted_witness :
  let batch := [([1; 2], [5]); ([3; 4], [7; 8]); ([9; 9; 9], [1])] in
  ∃ mx my,
    py_max (map length (map fst batch)) = Ok mx ∧
    py_max (map length (map snd batch)) = Ok my ∧
    batchify batch =
      Ok {| text_vecs :=
              PyTensor (reverse (map (padded mx 0) (map fst batch)));
            text_lens := PyList (reverse (map length (map fst batch)));
            target_vecs :=
              PyTensor (reverse (map (padded my 0) (map snd batch)));
            target_lens := PyList (reverse (map length (map snd batch)));
            use_packed := true |}.
Proof.
  intros batch.
  apply (batchify_reverses_sorted
           [([1; 2], [5]); ([3; 4], [7; 8]); ([9; 9; 9], [1])]).
  - discriminate.
  - apply (bool_decide_unpack _). vm_compute; reflexivity.
Defined.

(** ** Reordering: identity, composition, shapes and bounds *)

Lemma selects_identity {A : Type} (xs : list A) :
  selects xs (seqZ 0 (Z.of_nat (length xs))) xs.
Proof.
  apply Forall2_same_length_lookup_2.
  - rewrite length_seqZ. lia.
  - intros i j x Hj Hx. apply lookup_seqZ in Hj as [-> Hi].
    split; [lia |]. by rewrite Z.add_0_l, Nat2Z.id.
Qed.









Lemma select_entries_identity {A : Type} (xs : list A) :
  select_entries xs (seqZ 0 (Z.of_nat (length xs))) = Ok xs.
Proof. apply select_entries_Ok, selects_identity. Qed.

Lemma index_select_0_identity {A : Type} (t : tensor (list A)) :
  index_select_0 t
    (Tensor (tensor_device t) (seqZ 0 (Z.of_nat (length (tensor_data t)))))
  = Ok t.
Proof.
  unfold index_select_0. simpl. rewrite decide_True by done.
  rewrite select_entries_identity. by destruct t.
Qed.

Lemma index_select_1_identity {A : Type} (t : tensor (list (list A))) n :
  Forall (fun row => length row = n) (tensor_data t) →
  index_select_1 t (Tensor (tensor_device t) (seqZ 0 (Z.of_nat n))) = Ok t.
Proof.
  intros Hrows. unfold index_select_1. simpl. rewrite decide_True by done.
  assert (for_each (fun row => select_entries row (seqZ 0 (Z.of_nat n)))
                   (tensor_data t) = Ok (tensor_data t)) as ->.
  { apply for_each_Ok. apply Forall2_same_length_lookup_2; [done |].
    intros i row row' Hrow Hrow'. simplify_eq.
    rewrite Forall_forall in Hrows.
    rewrite <-(Hrows row) by (by eapply list_elem_of_lookup_2).
    apply select_entries_identity. }
  by destruct t.
Qed.

(** X23. Reordering by the identity indices [0, ..., n-1] returns the
    encoder states unchanged, when [n] is their batch size and their
    tensors are on one device. *)
Theorem reorder_encoder_states_identity {A B C : Type}
    (enc_out : tensor (list A)) (hidden : hidden_state B)
    (attention_mask : tensor (list C)) (n : nat) :
  length (tensor_data enc_out) = n →
  length (tensor_data attention_mask) = n →
  tensor_device enc_out = tensor_device (hid_of hidden) →
  tensor_device attention_mask = tensor_device (hid_of hidden) →
  Forall (fun t => tensor_device t = tensor_device (hid_of hidden) ∧
                   Forall (fun row => length row = n) (tensor_data t))
         (hidden_tensors hidden) →
  reorder_encoder_states (enc_out, hidden, attention_mask)
    (IdxList (seqZ 0 (Z.of_nat n)))
  = Ok (enc_out, hidden, attention_mask).
Proof.
  intros He Hm Hde Hdm Hh. unfold reorder_encoder_states.
  destruct hidden as [h | h c]; simpl in *.
  - apply Forall_cons in Hh as [[_ Hrows] _].
    rewrite (index_select_1_identity h n Hrows). simpl.
    rewrite <-Hde, <-He, index_select_0_identity. simpl.
    rewrite Hde, <-Hdm, He, <-Hm, index_select_0_identity. done.
  - apply Forall_cons in Hh as [[_ Hrows] [[Hdc Hcrows] _]%Forall_cons].
    rewrite (index_select_1_identity h n Hrows). simpl.
    rewrite <-Hdc, (index_select_1_identity c n Hcrows). simpl.
    rewrite Hdc, <-Hde, <-He, index_select_0_identity. simpl.
    rewrite Hde, <-Hdm, He, <-Hm, index_select_0_identity. done.
Qed.

Lemma reorder_encoder_states_identity_witness :
  reorder_encoder_states
    (Tensor (Cuda 0) [10; 20; 30],
     HTuple (Tensor (Cuda 0) [[1; 2; 3]; [4; 5; 6]])
            (Tensor (Cuda 0) [[7; 8; 9]; [1; 1; 2]]),
     Tensor (Cuda 0) [true; false; true])
    (IdxList (seqZ 0 (Z.of_nat 3)))
  = Ok (Tensor (Cuda 0) [10; 20; 30],
        HTuple (Tensor (Cuda 0) [[1; 2; 3]; [4; 5; 6]])
               (Tensor (Cuda 0) [[7; 8; 9]; [1; 1; 2]]),
        Tensor (Cuda 0) [true; false; true]).
Proof.
  apply (reorder_encoder_states_identity
           (Tensor (Cuda 0) [10; 20; 30])
           (HTuple (Tensor (Cuda 0) [[1; 2; 3]; [4; 5; 6]])
                   (Tensor (Cuda 0) [[7; 8; 9]; [1; 1; 2]]))
           (Tensor (Cuda 0) [true; false; true]) 3).
  - reflexivity.
  - reflexivity.
  - reflexivity.
  - reflexivity.
  - repeat constructor.
Defined.

(** What a returned reordering says of each tensor. *)
Lemma reorder_encoder_states_inv {A B C : Type}
    (enc_out enc_out' : tensor (list A)) (hidden hidden' : hidden_state B)
    (attention_mask attention_mask' : tensor (list C)) (indices : index_arg) :
  reorder_encoder_states (enc_out, hidden, attention_mask) indices
    = Ok (enc_out', hidden', attention_mask') →
  let ix := as_index_tensor (hid_of hidden) indices in
  index_selected_0 enc_out ix enc_out' ∧
  index_selected_0 attention_mask ix attention_mask' ∧
  Forall2 (fun t t' => index_selected_1 t ix t')
          (hidden_tensors hidden) (hidden_tensors hidden').
Proof.
  unfold reorder_encoder_states. destruct hidden as [h | h c]; simpl.
  - intros (h1 & Hh & Hrest)%bind_Ok. simpl in Hrest.
    apply bind_Ok in Hrest as (e1 & He & Hrest).
    apply bind_Ok in Hrest as (m1 & Hm & [= <- <- <-]).
    apply index_select_1_Ok in Hh. apply index_select_0_Ok in He, Hm.
    split; [done |]. split; [done |]. simpl.
    constructor; [done | constructor].
  - intros (h1 & Hh & Hrest)%bind_Ok.
    apply bind_Ok in Hrest as (hd & (c1 & Hc & [= <-])%bind_Ok & Hrest).
    apply bind_Ok in Hrest as (e1 & He & Hrest).
    apply bind_Ok in Hrest as (m1 & Hm & [= <- <- <-]).
    apply index_select_1_Ok in Hh, Hc. apply index_select_0_Ok in He, Hm.
    split; [done |]. split; [done |]. simpl.
    constructor; [done |]. constructor; [done | constructor].
Qed.

Lemma selects_length {A : Type} (xs : list A) indices out :
  selects xs indices out → length out = length indices.
Proof. intros H. symmetry. by eapply Forall2_length. Qed.

Lemma selects_bounds {A : Type} (xs : list A) indices out :
  selects xs indices out →
  Forall (fun i => 0 ≤ i < Z.of_nat (length xs)) indices.
Proof.
  induction 1 as [|i x indices out [Hi Hx] _ IH]; constructor; [|done].
  apply lookup_lt_Some in Hx. lia.
Qed.

(** X24. In the states [reorder_encoder_states] returns, the batch
    dimension has [len(indices)] entries: [enc_out] and [attention_mask]
    have that many entries, and every hidden tensor keeps its number of
    layers and has that many entries in each; every tensor stays on its
    device. *)
Theorem reorder_encoder_states_shapes {A B C : Type}
    (enc_out enc_out' : tensor (list A)) (hidden hidden' : hidden_state B)
    (attention_mask attention_mask' : tensor (list C)) (indices : index_arg) :
  reorder_encoder_states (enc_out, hidden, attention_mask) indices
    = Ok (enc_out', hidden', attention_mask') →
  let n := length (tensor_data (as_index_tensor (hid_of hidden) indices)) in
  length (tensor_data enc_out') = n ∧
  tensor_device enc_out' = tensor_device enc_out ∧
  length (tensor_data attention_mask') = n ∧
  tensor_device attention_mask' = tensor_device attention_mask ∧
  Forall2 (fun t t' =>
             tensor_device t' = tensor_device t ∧
             length (tensor_data t') = length (tensor_data t) ∧
             Forall (fun row => length row = n) (tensor_data t'))
          (hidden_tensors hidden) (hidden_tensors hidden').
Proof.
  intros (He & Hm & Hh)%reorder_encoder_states_inv n.
  destruct He as (_ & Hde & He). destruct Hm as (_ & Hdm & Hm).
  split; [by apply selects_length in He |]. split; [done |].
  split; [by apply selects_length in Hm |]. split; [done |].
  eapply Forall2_impl; [exact Hh |]. intros t t' (_ & Hdt & Hrows).
  split; [done |]. split; [symmetry; by eapply Forall2_length |].
  clear -Hrows. induction Hrows as [|row row' rows rows' Hrow _ IH];
    constructor; [by apply selects_length in Hrow | done].
Qed.

Lemma reorder_encoder_states_shapes_witness :
  let n := length [2; 0; 0; 1] in
  length (tensor_data (Tensor Cpu [30; 10; 10; 20])) = n ∧
  tensor_device (Tensor Cpu [30; 10; 10; 20])
    = tensor_device (Tensor Cpu [10; 20; 30]) ∧
  length (tensor_data (Tensor Cpu [true; true; true; false])) = n ∧
  tensor_device (Tensor Cpu [true; true; true; false])
    = tensor_device (Tensor Cpu [true; false; true]) ∧
  Forall2 (fun t t' : tensor (list (list Z)) =>
             tensor_device t' = tensor_device t ∧
             length (tensor_data t') = length (tensor_data t) ∧
             Forall (fun row => length row = n) (tensor_data t'))
          (hidden_tensors (HTensor (Tensor Cpu [[1; 2; 3]; [4; 5; 6]])))
          (hidden_tensors
             (HTensor (Tensor Cpu [[3; 1; 1; 2]; [6; 4; 4; 5]]))).
Proof.
  apply (reorder_encoder_states_shapes
           (Tensor Cpu [10; 20; 30]) (Tensor Cpu [30; 10; 10; 20])
           (HTensor (Tensor Cpu [[1; 2; 3]; [4; 5; 6]]))
           (HTensor (Tensor Cpu [[3; 1; 1; 2]; [6; 4; 4; 5]]))
           (Tensor Cpu [true; false; true])
           (Tensor Cpu [true; true; true; false])
           (IdxList [2; 0; 0; 1])).
  reflexivity.
Defined.

(** X25. [reorder_encoder_states] returns only when every tensor is on the
    device of the index tensor and every index is at least 0 and below the
    batch size of [enc_out], of [attention_mask] and of every layer of the
    hidden state: an index counting from the end is not accepted. *)
Theorem reorder_encoder_states_bounds {A B C : Type}
    (enc_out : tensor (list A)) (hidden : hidden_state B)
    (attention_mask : tensor (list C)) (indices : index_arg)
    (r : tensor (list A) * hidden_state B * tensor (list C)) :
  reorder_encoder_states (enc_out, hidden, attention_mask) indices = Ok r →
  let ix := as_index_tensor (hid_of hidden) indices in
  tensor_device enc_out = tensor_device ix ∧
  tensor_device attention_mask = tensor_device ix ∧
  Forall (fun i => 0 ≤ i < Z.of_nat (length (tensor_data enc_out)) ∧
                   i < Z.of_nat (length (tensor_data attention_mask)))
         (tensor_data ix) ∧
  Forall (fun t => tensor_device t = tensor_device ix ∧
                   Forall (fun row =>
                             Forall (fun i => 0 ≤ i < Z.of_nat (length row))
                                    (tensor_data ix))
                          (tensor_data t))
         (hidden_tensors hidden).
Proof.
  destruct r as [[enc' hidden'] mask'].
  intros (He & Hm & Hh)%reorder_encoder_states_inv ix. fold ix in He, Hm, Hh.
  destruct He as (Hde & _ & He). destruct Hm as (Hdm & _ & Hm).
  split; [done |]. split; [done |]. split.
  - apply selects_bounds in He, Hm. rewrite Forall_forall in He, Hm.
    apply Forall_forall. intros i Hi.
    specialize (He i Hi). specialize (Hm i Hi). lia.
  - clear -Hh. induction Hh as [|t t' ts ts' (Hdt & _ & Hrows) _ IH];
      constructor; [|done].
    split; [done |].
    clear -Hrows. induction Hrows as [|row row' rows rows' Hrow _ IH];
      constructor; [by apply selects_bounds in Hrow | done].
Qed.

Lemma reorder_encoder_states_bounds_witness :
  let ix := as_index_tensor
              (hid_of (HTensor (Tensor Cpu [[1; 2; 3]; [4; 5; 6]])))
              (IdxList [2; 0; 0; 1]) in
  tensor_device (Tensor Cpu [10; 20; 30]) = tensor_device ix ∧
  tensor_device (Tensor Cpu [true; false; true]) = tensor_device ix ∧
  Forall (fun i => 0 ≤ i < Z.of_nat (length [10; 20; 30]) ∧
                   i < Z.of_nat (length [true; false; true]))
         (tensor_data ix) ∧
  Forall (fun t : tensor (list (list Z)) =>
            tensor_device t = tensor_device ix ∧
            Forall (fun row =>
                      Forall (fun i => 0 ≤ i < Z.of_nat (length row))
                             (tensor_data ix))
                   (tensor_data t))
         (hidden_tensors (HTensor (Tensor Cpu [[1; 2; 3]; [4; 5; 6]]))).
Proof.
  apply (reorder_encoder_states_bounds
           (Tensor Cpu [10; 20; 30])
           (HTensor (Tensor Cpu [[1; 2; 3]; [4; 5; 6]]))
           (Tensor Cpu [true; false; true])
           (IdxList [2; 0; 0; 1])
           (Tensor Cpu [30; 10; 10; 20],
            HTensor (Tensor Cpu [[3; 1; 1; 2]; [6; 4; 4; 5]]),
            Tensor Cpu [true; true; true; false])).
  reflexivity.
Defined.

(** X26. On a single hidden tensor the decoder reordering agrees with the
    encoder reordering: what [reorder_encoder_states] returns as hidden
    state for a GRU/RNN is what [reorder_decoder_incremental_state] returns
    for that tensor and the same index tensor. *)
Theorem reorder_decoder_agrees_with_encoder {A B C : Type}
    (enc_out enc_out' : tensor (list A))
    (h : tensor (list (list B))) (hidden' : hidden_state B)
    (attention_mask attention_mask' : tensor (list C))
    (inds : tensor (list Z)) :
  reorder_encoder_states (enc_out, HTensor h, attention_mask) (IdxTensor inds)
    = Ok (enc_out', hidden', attention_mask') →
  ∃ h', hidden' = HTensor h' ∧
        reorder_decoder_incremental_state (ITensor h) inds = Ok (RTensor h').
Proof.
  unfold reorder_encoder_states. simpl.
  intros (h1 & Hh & Hrest)%bind_Ok. simpl in Hrest.
  apply bind_Ok in Hrest as (e1 & He & Hrest).
  apply bind_Ok in Hrest as (m1 & Hm & [= <- <- <-]).
  exists h1. split; [done |]. by rewrite Hh.
Qed.

Lemma reorder_decoder_agrees_with_encoder_witness :
  ∃ h', HTensor (Tensor Cpu [[3; 1]; [6; 4]]) = HTensor h' ∧
        reorder_decoder_incremental_state
          (ITensor (Tensor Cpu [[1; 2; 3]; [4; 5; 6]])) (Tensor Cpu [2; 0])
        = Ok (RTensor h').
Proof.
  apply (reorder_decoder_agrees_with_encoder
           (Tensor Cpu [10; 20; 30]) (Tensor Cpu [30; 10])
           (Tensor Cpu [[1; 2; 3]; [4; 5; 6]])
           (HTensor (Tensor Cpu [[3; 1]; [6; 4]]))
           (Tensor Cpu [true; false; true]) (Tensor Cpu [true; true])
           (Tensor Cpu [2; 0])).
  reflexivity.
Defined.

(** ** Decoding beams and loading well-formed files *)

Lemma v2t_in_range (is_space : ascii → bool) dict_raw d list_ids :
  Dict.init is_space dict_raw = Ok d →
  Forall (fun k => 0 ≤ k < Z.of_nat (length dict_raw)) list_ids →
  ∃ s, Dict.v2t d list_ids = Ok s.
Proof.
  intros Hinit Hall.
  destruct (DictFacts.init_inv _ _ _ Hinit) as (es & Hes & Hinv).
  pose proof (entries_length _ _ _ Hes) as Hlen.
  destruct (for_each_total (dict_getitem (ind2word d)) list_ids) as [ws Hws].
  { eapply Forall_impl; [exact Hall |]. intros k Hk. simpl in Hk.
    destruct (lookup_lt_is_Some_2 es.*1 (Z.to_nat k)) as [w Hw].
    { rewrite length_fmap. lia. }
    exists w. apply dict_getitem_Ok.
    apply (DictFacts.inv_ind2word _ _ Hinv). split; [lia | done]. }
  unfold Dict.v2t. rewrite Hws. by eexists.
Qed.

(** X27. When every token id of every hypothesis the beam returns is the
    number of a line of the dictionary file, [get_nbest_list_from_beam]
    returns one pair per hypothesis, with the scores in the beam's order;
    it calls the beam once, with the given [n_best], or with
    [beam.min_n_best] when none is given. *)
Theorem get_nbest_list_from_beam_returns {S : Type}
    (is_space : ascii → bool) (dict_raw : list string)
    (dictionary : ChatDictionary) (beam : Beam S) (n_best : option Z)
    (add_length_penalty : bool) :
  let n := match n_best with Some n => n | None => min_n_best beam end in
  let nbest_list := get_rescored_finished beam n add_length_penalty in
  Dict.init is_space dict_raw = Ok dictionary →
  Forall (fun hyp => Forall (fun k => 0 ≤ k < Z.of_nat (length dict_raw))
                            (tensor_data hyp.1))
         nbest_list →
  ∃ out,
    get_nbest_list_from_beam beam dictionary n_best add_length_penalty
    = ([BeamCall n add_length_penalty], Ok out) ∧
    length out = length nbest_list ∧
    map snd out = map (fun hyp => tensor_data hyp.2) nbest_list.
Proof.
  intros n nbest_list Hinit Hall. unfold get_nbest_list_from_beam.
  fold n. fold nbest_list.
  destruct (for_each_total
              (fun i : tensor (list Z) * tensor S =>
                 text ← Dict.v2t dictionary (tensor_data i.1);
                 Ok (text, tensor_data i.2)) nbest_list) as [out Hout].
  { eapply Forall_impl; [exact Hall |]. intros hyp Hhyp.
    destruct (v2t_in_range _ _ _ _ Hinit Hhyp) as [s Hs].
    simpl. rewrite Hs. by eexists. }
  exists out. rewrite Hout. split; [done |].
  apply for_each_Ok in Hout. clear Hall.
  induction Hout as [|hyp o hyps out Ho _ [IH1 IH2]]; [done |].
  apply bind_Ok in Ho as (text & _ & [= <-]). simpl.
  by rewrite IH1, IH2.
Qed.

Lemma get_nbest_list_from_beam_returns_witness :
  let beam := {| min_n_best := 2;
                 get_rescored_finished := fun n _ =>
                   take (Z.to_nat n)
                        [(Tensor Cpu [3; 5; 2], Tensor Cpu 7%nat);
                         (Tensor Cpu [5; 2], Tensor Cpu 4%nat);
                         (Tensor Cpu [2], Tensor Cpu 1%nat)] |} in
  ∃ out,
    get_nbest_list_from_beam beam demo_dict None false
    = ([BeamCall 2 false], Ok out) ∧
    length out = length (get_rescored_finished beam 2 false) ∧
    map snd out
    = map (fun hyp => tensor_data hyp.2) (get_rescored_finished beam 2 false).
Proof.
  intros beam.
  apply (get_nbest_list_from_beam_returns ascii_is_space demo_dict_file
           demo_dict beam None false).
  - vm_compute; reflexivity.
  - apply (bool_decide_unpack _). vm_compute; reflexivity.
Defined.

Lemma t2v_returns (is_space : ascii → bool) dict_raw d tokens :
  Dict.init is_space dict_raw = Ok d →
  is_Some (counts d !! "__unk__") →
  ∃ v, Dict.t2v d tokens = Ok v.
Proof.
  intros Hinit Hunk. apply for_each_total, Forall_forall. intros w _. simpl.
  destruct (dict_contains (counts d) w) eqn:Hc.
  - apply dict_contains_true in Hc.
    apply (counts_word2ind _ _ _ Hinit) in Hc as [k Hk].
    exists k. by apply dict_getitem_Ok.
  - apply (counts_word2ind _ _ _ Hinit) in Hunk as [k Hk].
    exists k. by apply dict_getitem_Ok.
Qed.

(** X28. With a dictionary that has the word ['__unk__'], [ChatDataset]
    loads every training or validation file whose lines are JSON objects
    with a string under ['text'] and a string first under the target key:
    no token of the data can make it fail. *)
Theorem ChatDataset_loads_well_formed (is_word is_space : ascii → bool)
    (json_loads : string → result json) (dict_raw json_text : list string)
    (dictionary : ChatDictionary) (dt : string) :
  dt = "train" ∨ dt = "valid" →
  Dict.init is_space dict_raw = Ok dictionary →
  is_Some (counts dictionary !! "__unk__") →
  Forall (fun line =>
            ∃ sample text labels first,
              json_loads (rstrip is_space line) = Ok sample ∧
              json_getitem_str sample "text" = Ok (JStr text) ∧
              json_getitem_str sample (Dataset.target_key dt) = Ok labels ∧
              json_getitem_0 labels = Ok (JStr first))
         json_text →
  ∃ ds,
    Dataset.init is_word is_space json_loads json_text dictionary dt = Ok ds ∧
    Dataset.len ds = length json_text.
Proof.
  intros Hdt Hinit Hunk Hlines.
  destruct (for_each_total
              (Dataset.load_sample is_word is_space json_loads dictionary dt)
              json_text) as [ss Hss].
  { eapply Forall_impl; [exact Hlines |].
    intros line (sample & text & labels & first & H1 & H2 & H3 & H4).
    destruct (t2v_returns _ _ _ (findall is_word is_space text) Hinit Hunk)
      as [tv Htv].
    destruct (t2v_returns _ _ _
                (findall is_word is_space first ++ ["__end__"]) Hinit Hunk)
      as [gv Hgv].
    exists {| sample_json := sample; text_vec := tv; target_vec := gv |}.
    apply load_sample_Ok; [done |]. by exists text, labels, first. }
  exists {| samples := ss |}. unfold Dataset.init. rewrite Hss.
  split; [done |]. unfold Dataset.len. simpl.
  apply for_each_Ok in Hss. symmetry. by eapply Forall2_length.
Qed.

Lemma ChatDataset_loads_well_formed_witness :
  ∃ ds,
    Dataset.init ascii_is_word ascii_is_space demo_json_loads demo_json_text
      demo_dict "train" = Ok ds ∧
    Dataset.len ds = length demo_json_text.
Proof.
  apply (ChatDataset_loads_well_formed ascii_is_word ascii_is_space
           demo_json_loads demo_dict_file demo_json_text demo_dict "train").
  - left; reflexivity.
  - vm_compute; reflexivity.
  - apply (bool_decide_unpack _). vm_compute; reflexivity.
  - repeat constructor.
    + exists (JDict [("text", JStr "hello there");
                     ("labels", JList [JStr "hello world"])]),
        "hello there", (JList [JStr "hello world"]), "hello world".
      repeat split; vm_compute; reflexivity.
    + exists (JDict [("text", JStr "world");
                     ("labels", JList [JStr "hello"])]),
        "world", (JList [JStr "hello"]), "hello".
      repeat split; vm_compute; reflexivity.
Defined.
